(** * A shallow embedding of the PTT used-camera crawler (source/ptt/main.py)

    Python [str] values are sequences of Unicode code points; they are
    modelled as [list Z] (one code point per element), so that slicing,
    [rfind] and [strip] index code points exactly as Python does. *)

From Stdlib Require Import String Ascii ZArith List Bool Lia.
Import ListNotations.
Open Scope Z_scope.

(** ** Python strings *)

Definition pystr := list Z.

(** An ASCII literal as a Python string. *)
Fixpoint of_ascii (s : string) : pystr :=
  match s with
  | EmptyString => []
  | String c s' => Z.of_nat (nat_of_ascii c) :: of_ascii s'
  end.

Definition ch_newline : Z := 10.          (* '\n' *)
Definition ch_space : Z := 32.            (* ' ' *)
Definition ch_zero : Z := 48.             (* '0' *)
Definition ch_rbracket : Z := 93.         (* ']' *)
Definition ch_fw_rbracket : Z := 65341.   (* '］' U+FF3D *)
Definition ch_chu : Z := 20986.           (* '出' U+51FA *)
Definition ch_shou : Z := 21806.          (* '售' U+552E *)

(** [str.isspace] on one code point (the characters [str.strip] and
    [str.split] treat as whitespace). *)
Definition is_space (c : Z) : bool :=
  ((9 <=? c) && (c <=? 13)) || ((28 <=? c) && (c <=? 32)) || (c =? 133)
  || (c =? 160) || (c =? 5760) || ((8192 <=? c) && (c <=? 8202))
  || (c =? 8232) || (c =? 8233) || (c =? 8239) || (c =? 8287) || (c =? 12288).

Fixpoint lstrip (s : pystr) : pystr :=
  match s with
  | c :: s' => if is_space c then lstrip s' else s
  | [] => []
  end.

Definition rstrip (s : pystr) : pystr := rev (lstrip (rev s)).

(** [s.strip()] *)
Definition strip (s : pystr) : pystr := rstrip (lstrip s).

Fixpoint split_ws_aux (s : pystr) (cur : pystr) : list pystr :=
  match s with
  | [] => match cur with [] => [] | _ => [rev cur] end
  | c :: s' =>
      if is_space c then
        match cur with
        | [] => split_ws_aux s' []
        | _ => rev cur :: split_ws_aux s' []
        end
      else split_ws_aux s' (c :: cur)
  end.

(** [s.split()] *)
Definition split_ws (s : pystr) : list pystr := split_ws_aux s [].

Fixpoint rfind_aux (s : pystr) (c : Z) (i best : Z) : Z :=
  match s with
  | [] => best
  | x :: s' => rfind_aux s' c (i + 1) (if x =? c then i else best)
  end.

(** [s.rfind(c)] for a one-character [c]: the last index, or -1. *)
Definition rfind (s : pystr) (c : Z) : Z := rfind_aux s c 0 (-1).

Fixpoint is_prefix (p s : pystr) : bool :=
  match p, s with
  | [], _ => true
  | x :: p', y :: s' => (x =? y) && is_prefix p' s'
  | _ :: _, [] => false
  end.

(** [s.startswith(p)] *)
Definition startswith (s p : pystr) : bool := is_prefix p s.

(** [sub in s] *)
Fixpoint contains (s sub : pystr) : bool :=
  is_prefix sub s || match s with [] => false | _ :: s' => contains s' sub end.

(** [sep.join(parts)] *)
Fixpoint join (sep : pystr) (parts : list pystr) : pystr :=
  match parts with
  | [] => []
  | [p] => p
  | p :: ps => p ++ sep ++ join sep ps
  end.

(** ** Decimal digits: [\d] of a [str] pattern and [int()]

    Python's [\d] matches every Unicode decimal digit (category Nd), and
    [int()] reads each by its decimal value. Every Nd range is ten
    consecutive code points; [nd_zeros] lists the code point of each
    range's zero. *)
Definition nd_zeros : list Z :=
  [0x30; 0x660; 0x6F0; 0x7C0; 0x966; 0x9E6; 0xA66; 0xAE6; 0xB66; 0xBE6;
   0xC66; 0xCE6; 0xD66; 0xDE6; 0xE50; 0xED0; 0xF20; 0x1040; 0x1090; 0x17E0;
   0x1810; 0x1946; 0x19D0; 0x1A80; 0x1A90; 0x1B50; 0x1BB0; 0x1C40; 0x1C50;
   0xA620; 0xA8D0; 0xA900; 0xA9D0; 0xA9F0; 0xAA50; 0xABF0; 0xFF10; 0x104A0;
   0x10D30; 0x11066; 0x110F0; 0x11136; 0x111D0; 0x112F0; 0x11450; 0x114D0;
   0x11650; 0x116C0; 0x11730; 0x118E0; 0x11950; 0x11C50; 0x11D50; 0x11DA0;
   0x16A60; 0x16AC0; 0x16B50; 0x1D7CE; 0x1D7D8; 0x1D7E2; 0x1D7EC; 0x1D7F6;
   0x1E140; 0x1E2F0; 0x1E950; 0x1FBF0].

Fixpoint decimal_in (zs : list Z) (c : Z) : option Z :=
  match zs with
  | [] => None
  | z :: zs' => if (z <=? c) && (c <? z + 10) then Some (c - z) else decimal_in zs' c
  end.

(** [unicodedata.decimal(c)] *)
Definition decimal (c : Z) : option Z := decimal_in nd_zeros c.

Definition is_digit (c : Z) : bool :=
  match decimal c with Some _ => true | None => false end.

Definition digit_value (c : Z) : Z :=
  match decimal c with Some v => v | None => 0 end.

(** [int(m)] for a string of decimal digits. *)
Definition int_value (m : pystr) : Z :=
  fold_left (fun acc c => acc * 10 + digit_value c) m 0.

(** ** The regular expressions

    Python's [re] is a backtracking matcher: [re.search] tries the start
    positions from left to right, and at each one a greedy [\d+] takes the
    whole run of digits, then gives back one digit at a time until the
    rest of the pattern matches. *)

(** Length of the run of digits [\d+] can take at the head of [s]. *)
Fixpoint digit_run (s : pystr) : nat :=
  match s with
  | c :: s' => if is_digit c then S (digit_run s') else O
  | [] => O
  end.

Definition char_at (s : pystr) (k : nat) (c : Z) : bool :=
  match nth_error s k with Some x => x =? c | None => false end.

(** Backtracking of [\d+] in [\d+00]: [\d+] holds [k] digits, and the
    literal [00] must follow. *)
Fixpoint backtrack_00 (s : pystr) (k : nat) : option nat :=
  match k with
  | O => None
  | S k' => if char_at s k ch_zero && char_at s (S k) ch_zero then Some k
            else backtrack_00 s k'
  end.

(** [(\d+00)] anchored at the head of [s]: group 0 of the match. *)
Definition match_price_at (s : pystr) : option pystr :=
  match backtrack_00 s (digit_run s) with
  | Some k => Some (firstn (k + 2) s)
  | None => None
  end.

Fixpoint search_price_from (s : pystr) (i : nat) : option (nat * pystr) :=
  match match_price_at s with
  | Some m => Some (i, m)
  | None => match s with [] => None | _ :: s' => search_price_from s' (S i) end
  end.

(** [re.search("(\\d+00)", content)]: start position and group 0. *)
Definition search_price (s : pystr) : option (nat * pystr) := search_price_from s 0.

(** A hundred-rounded number: three or more decimal digits, the last two
    of them ['0']. *)
Definition hundred_rounded (m : pystr) : Prop :=
  (3 <= length m)%nat /\ forallb is_digit m = true /\ exists p, m = p ++ [ch_zero; ch_zero].

(** Backtracking of [\d+] in [(\d+).html]: after [k] digits, [.] takes one
    character other than a newline and [html] follows. *)
Fixpoint backtrack_tag (s : pystr) (k : nat) : option nat :=
  match k with
  | O => None
  | S k' =>
      if match nth_error s k with Some x => negb (x =? ch_newline) | None => false end
         && is_prefix (of_ascii "html") (skipn (S k) s)
      then Some k else backtrack_tag s k'
  end.

Definition match_tag_at (s : pystr) : option pystr :=
  match backtrack_tag s (digit_run s) with
  | Some k => Some (firstn k s)
  | None => None
  end.

(** [re.search("(\\d+).html", url)]: group 1. *)
Fixpoint search_tag (s : pystr) : option pystr :=
  match match_tag_at s with
  | Some g => Some g
  | None => match s with [] => None | _ :: s' => search_tag s' end
  end.

(** ** Records and exceptions *)

(** [Record]: [date] is the timestamp [dateutil.parser.parse] yields. *)
Record record := mk_record {
  name : pystr;
  price : Z;
  source : pystr;
  author : pystr;
  date : Z;
  url : pystr
}.

(** The three messages of [PttRecordException]. *)
Inductive ptt_reason := NotSalePost | NotOriginalPost | InvalidPrice.

(** The exceptions the crawler's code can raise. *)
Inductive exn :=
| PttRecordException (r : ptt_reason) (title : pystr)
| AttributeError    (* [.group] on the [None] of a failed [re.search] *)
| IndexError        (* [[0]], [[1]], [[2]] on too short a list *)
| ValueError        (* [parser.parse] on an unparsable date *)
| RequestException  (* [requests.get] failing *)
| OSError.          (* [open(..., "w")] failing *)

Inductive result (A : Type) :=
| Ok (a : A)
| Err (e : exn).
Arguments Ok {A} a.
Arguments Err {A} e.

Definition rbind {A B} (m : result A) (k : A -> result B) : result B :=
  match m with Ok a => k a | Err e => Err e end.

Notation "x <-? m ;; k" := (rbind m (fun x => k))
  (at level 61, m at next level, right associativity).

(** ** The parsed documents

    A post page as [PttRecord.__init__] reads it: the texts of the
    [.article-metaline .article-meta-value] nodes in document order, and
    the top-level text nodes of the first [#main-content] node ([None] when
    there is no such node). *)
Record post_doc := mk_post_doc {
  meta_values : list pystr;
  main_content : option (list pystr)
}.

(** A listing page as [__fetch_page_urls] reads it: for each [div.r-ent]
    row the [href] of its first [<a>] if it has one, and the [href]s of the
    [#action-bar-container .btn-group-paging a] links. *)
Record listing_doc := mk_listing_doc {
  rows : list (option pystr);
  paging_links : list pystr
}.

(** ** PttRecord *)

Definition sale_marker : pystr := [ch_chu; ch_shou].

(** [PttRecord.__format_name] *)
Definition format_name (title : pystr) : result pystr :=
  if negb (contains title sale_marker) then Err (PttRecordException NotSalePost title)
  else if startswith title (of_ascii "Re:") then Err (PttRecordException NotOriginalPost title)
  else Ok (strip (skipn (Z.to_nat (Z.max (rfind title ch_rbracket)
                                         (rfind title ch_fw_rbracket) + 1)) title)).

(** The two closing brackets [__format_name] looks for. *)
Definition is_close (c : Z) : bool := (c =? ch_rbracket) || (c =? ch_fw_rbracket).

Definition nth_or_index_error {A} (l : list A) (n : nat) : result A :=
  match nth_error l n with Some x => Ok x | None => Err IndexError end.

(** [PttRecord(dom, url)]; [parse_date] is [dateutil.parser.parse]. *)
Definition ptt_record (parse_date : pystr -> option Z) (dom : post_doc) (u : pystr)
  : result record :=
  let header := meta_values dom in
  texts <-? match main_content dom with Some t => Ok t | None => Err IndexError end ;;
  let content := join [ch_space] texts in
  title <-? nth_or_index_error header 1 ;;
  nm <-? format_name title ;;
  a <-? nth_or_index_error header 0 ;;
  au <-? nth_or_index_error (split_ws a) 0 ;;
  d <-? nth_or_index_error header 2 ;;
  dt <-? match parse_date d with Some t => Ok t | None => Err ValueError end ;;
  m <-? match search_price content with Some (_, m) => Ok m | None => Err AttributeError end ;;
  let p := int_value m in
  if p =? 0 then Err (PttRecordException InvalidPrice nm)
  else Ok (mk_record nm p (of_ascii "ptt") au dt u).

(** The extractor's failure kinds as the spec names them, read off the
    exception [ptt_record] raises. *)
Inductive failure :=
| F_NotASalePost | F_NotOriginalPost | F_PriceNotFound | F_ZeroPrice
| F_StructureError | F_Unclassified.

Definition classify (e : exn) : failure :=
  match e with
  | PttRecordException NotSalePost _ => F_NotASalePost
  | PttRecordException NotOriginalPost _ => F_NotOriginalPost
  | PttRecordException InvalidPrice _ => F_ZeroPrice
  | AttributeError => F_PriceNotFound
  | IndexError | ValueError => F_StructureError
  | RequestException | OSError => F_Unclassified
  end.

(** The failure kind of an extraction's outcome, if it failed. *)
Definition failure_of (r : result record) : option failure :=
  match r with Ok _ => None | Err e => Some (classify e) end.

(** ** The crawler's effects

    What [with open(path, "w") as fout: ...] does to a file: [open]
    raises and the file is untouched, or [open] truncates the file and
    the writes and the closing all succeed, or [open] truncates the file
    and a later write (or the final flush at [close]) raises after the
    first [k] characters reached the file. *)
Inductive write_outcome :=
| Written
| OpenFails
| WriteFails (k : nat).

(** The outside world: [dateutil.parser.parse], [requests.get] followed by
    [BeautifulSoup] for listing and post pages ([None] when the request
    raises), and what writing a file does. *)
Record env := mk_env {
  parse_date : pystr -> option Z;
  get_listing : pystr -> option listing_doc;
  get_post : pystr -> option post_doc;
  file_write : pystr -> write_outcome
}.

(** The lines the crawler prints. *)
Inductive msg :=
| MsgFound (href : pystr)                   (* "Found: %s" *)
| MsgSkipped                                (* "Skipped" *)
| MsgFetching (u : pystr)                   (* "Fetching %s" *)
| MsgUnableToParse                          (* "Skipped, unable to parse" *)
| MsgPttError (r : ptt_reason) (t : pystr)  (* "Skipped, ptt post error" *)
| MsgUnseen (e : exn)                       (* "Skipped, unseen exception" *)
| MsgSaved (filename : pystr).              (* "Saved %s" *)

(** The crawler's input and output, in order. *)
Inductive event :=
| Print (m : msg)
| Get (u : pystr)                                (* [requests.get(u)] *)
| WriteCsv (filename : pystr) (rows : list record)
  (* the file truncated, then writing these rows raised: only part of them
     reached it *)
| WriteCsvFailed (filename : pystr) (rows : list record)
| WriteCache (u : pystr).                        (* the [cache] file rewritten *)

(** The disk's [cache] file ([None] when it is not a file) and the
    events so far. *)
Record state := mk_state {
  cache_file : option pystr;
  io : list event
}.

(** A state and exception monad: an exception carries the state at the
    point it was raised. *)
Definition M (A : Type) : Type := state -> result A * state.

Definition ret {A} (a : A) : M A := fun s => (Ok a, s).

Definition bind {A B} (m : M A) (k : A -> M B) : M B :=
  fun s => match m s with
           | (Ok a, s') => k a s'
           | (Err e, s') => (Err e, s')
           end.

Definition raise {A} (e : exn) : M A := fun s => (Err e, s).

(** [try: m except: h] *)
Definition catch {A} (m : M A) (h : exn -> M A) : M A :=
  fun s => match m s with
           | (Err e, s') => h e s'
           | r => r
           end.

Definition lift {A} (r : result A) : M A := fun s => (r, s).

Definition emit (ev : event) : M unit :=
  fun s => (Ok tt, mk_state (cache_file s) (io s ++ [ev])).

Notation "x <- m ;; k" := (bind m (fun x => k))
  (at level 61, m at next level, right associativity).
Notation "m ;;; k" := (bind m (fun _ => k))
  (at level 61, right associativity).

(** ** PttCrawler *)

Definition URL_PREFIX : pystr := of_ascii "http://www.ptt.cc".
Definition INDEX_SUFFIX : pystr := of_ascii "/index979.html".
Definition PAGES : nat := 100.
Definition CACHE_FILE : pystr := of_ascii "cache".

(** [SAVED_CSV % tag] and [SAVED_CSV] *)
Definition SAVED_CSV : pystr := of_ascii "records/%s.csv".
Definition saved_csv (tag : pystr) : pystr := of_ascii "records/" ++ tag ++ of_ascii ".csv".

(** [PttCrawler.Cache]: its [__next_page] field. *)
Definition cache := option pystr.

(** [Cache.__init__]: the stripped contents of the [cache] file, if any. *)
Definition cache_init (file : option pystr) : cache :=
  match file with Some text => Some (strip text) | None => None end.

Definition read_next_page (c : cache) : option pystr := c.

Definition is_cached (c : cache) : bool :=
  match c with Some _ => true | None => false end.

(** [Cache.write_next_page]: [open(CACHE_FILE, "w")], then write; a
    failed write leaves the file holding the characters that reached it. *)
Definition write_next_page (e : env) (next_page : pystr) : M unit :=
  match file_write e CACHE_FILE with
  | Written =>
      fun s => (Ok tt, mk_state (Some next_page) (io s ++ [WriteCache next_page]))
  | OpenFails => raise OSError
  | WriteFails k =>
      fun s => (Err OSError, mk_state (Some (firstn k next_page))
                                      (io s ++ [WriteCache (firstn k next_page)]))
  end.

(** [PttCrawler.__get_dom] *)
Definition get_dom {D} (fetcher : pystr -> option D) (u : pystr) : M D :=
  emit (Print (MsgFetching u)) ;;;
  emit (Get u) ;;;
  match fetcher u with Some d => ret d | None => raise RequestException end.

Fixpoint collect_rows (rs : list (option pystr)) : M (list pystr) :=
  match rs with
  | [] => ret []
  | Some href :: rs' =>
      emit (Print (MsgFound href)) ;;;
      rest <- collect_rows rs' ;;
      ret (href :: rest)
  | None :: rs' =>
      emit (Print MsgSkipped) ;;;
      collect_rows rs'
  end.

(** [PttCrawler.__fetch_page_urls]: the next page's [href] and the
    post [href]s in row order (the [queue.Queue]). *)
Definition fetch_page_urls (e : env) (u : pystr) : M (pystr * list pystr) :=
  dom <- get_dom (get_listing e) u ;;
  page_post_urls <- collect_rows (rows dom) ;;
  match nth_error (paging_links dom) 1 with
  | Some next_page_url => ret (next_page_url, page_post_urls)
  | None => raise IndexError
  end.

(** [PttCrawler.__fetch_post] *)
Definition fetch_post (e : env) (post_url : pystr) : M record :=
  dom <- get_dom (get_post e) post_url ;;
  lift (ptt_record (parse_date e) dom post_url).

(** The three [except] clauses of [__fetch_page_records]. *)
Definition skip_msg (x : exn) : msg :=
  match x with
  | AttributeError => MsgUnableToParse
  | PttRecordException r t => MsgPttError r t
  | _ => MsgUnseen x
  end.

(** [PttCrawler.__fetch_page_records], with [page_records] as [acc]. *)
Fixpoint fetch_page_records (e : env) (post_urls : list pystr) (acc : list record)
  : M (list record) :=
  match post_urls with
  | [] => ret acc
  | href :: rest =>
      let post_url := URL_PREFIX ++ href in
      r <- catch (x <- fetch_post e post_url ;; ret (Some x))
                 (fun x => emit (Print (skip_msg x)) ;;; ret None) ;;
      fetch_page_records e rest (match r with Some x => acc ++ [x] | None => acc end)
  end.

(** [PttCrawler.__save_page_records] *)
Definition save_page_records (e : env) (page_records : list record) (tag : pystr) : M unit :=
  let filename := match tag with [] => SAVED_CSV | _ => saved_csv tag end in
  match file_write e filename with
  | Written =>
      emit (WriteCsv filename page_records) ;;;
      emit (Print (MsgSaved filename))
  | OpenFails => raise OSError
  | WriteFails _ =>
      emit (WriteCsvFailed filename page_records) ;;;
      raise OSError
  end.

(** [PttCrawler.__parge_page_tag] *)
Definition parge_page_tag (u : pystr) : M pystr :=
  match search_tag u with Some g => ret g | None => raise AttributeError end.

(** One iteration of the [for] loop of [PttCrawler.fetch]: the next
    [page_url]. *)
Definition fetch_one_page (e : env) (page_url : pystr) : M pystr :=
  r <- fetch_page_urls e page_url ;;
  let (next_page_url, page_post_urls) := r in
  let post_urls := page_post_urls in
  page_records <- fetch_page_records e post_urls [] ;;
  tag <- parge_page_tag page_url ;;
  save_page_records e page_records tag ;;;
  let page_url' := URL_PREFIX ++ next_page_url in
  write_next_page e page_url' ;;;
  ret page_url'.

Fixpoint scan_pages (e : env) (n : nat) (page_url : pystr) : M unit :=
  match n with
  | O => ret tt
  | S n' => next <- fetch_one_page e page_url ;; scan_pages e n' next
  end.

(** The listing root for a board. *)
Definition root_page (board_name : pystr) : pystr :=
  URL_PREFIX ++ of_ascii "/bbs/" ++ board_name ++ INDEX_SUFFIX.

(** The starting url of [PttCrawler.fetch]. *)
Definition start_page (board_name : pystr) (c : cache) : pystr :=
  if is_cached c then match read_next_page c with Some p => p | None => [] end
  else root_page board_name.

(** [PttCrawler.fetch] *)
Definition fetch (e : env) (board_name : pystr) (c : cache) : M unit :=
  scan_pages e PAGES (start_page board_name c).

(** [PttCrawler(board_name).fetch()] on a disk in state [s]: the
    [Cache] is read when the crawler is built. *)
Definition run (e : env) (board_name : pystr) (s : state) : result unit * state :=
  fetch e board_name (cache_init (cache_file s)) s.

(** An action [m] keeps the relation [R] between the state it starts in
    and the state it ends in, whether it returns or raises. *)
Definition preserves (R : state -> state -> Prop) {A} (m : M A) : Prop :=
  forall s, R s (snd (m s)).

(** The [cache] file is left as it was. *)
Definition keeps_cache (s s' : state) : Prop := cache_file s' = cache_file s.

(** Events are only appended. *)
Definition io_extends (s s' : state) : Prop := exists l, io s' = io s ++ l.

(** An action whose first events, in every state, are [l]. *)
Definition starts_with_events (l : list event) {A} (m : M A) : Prop :=
  forall s, exists l', io (snd (m s)) = io s ++ l ++ l'.

(** What fetching and extracting one post yields, and the events it
    leaves, as [__fetch_page_records] sees them. *)
Definition post_outcome (e : env) (post_url : pystr) : result record :=
  match get_post e post_url with
  | Some dom => ptt_record (parse_date e) dom post_url
  | None => Err RequestException
  end.

Definition post_events (e : env) (href : pystr) : list event :=
  let post_url := URL_PREFIX ++ href in
  [Print (MsgFetching post_url); Get post_url] ++
  match post_outcome e post_url with Ok _ => [] | Err x => [Print (skip_msg x)] end.

(** The records of the posts whose extraction succeeds, in order. *)
Definition successes (e : env) (hrefs : list pystr) : list record :=
  flat_map (fun h => match post_outcome e (URL_PREFIX ++ h) with
                     | Ok r => [r] | Err _ => [] end) hrefs.

Definition pystr_eq_dec : forall a b : pystr, {a = b} + {a <> b} := list_eq_dec Z.eq_dec.

(** The records of a batch whose url is [u]. *)
Definition records_with_url (u : pystr) (rs : list record) : list record :=
  filter (fun r => if pystr_eq_dec (url r) u then true else false) rs.

(** ** The [cache] file on disk under a crash

    [write_next_page] opens the file with mode ["w"], which truncates it,
    then writes the url; the written characters reach the disk in order.
    A crash after the first [k] disk operations leaves the file as they
    left it. *)
Inductive disk_op := Truncate | Append (c : Z).

Definition write_next_page_ops (next_page : pystr) : list disk_op :=
  Truncate :: map Append next_page.

Definition apply_op (f : option pystr) (op : disk_op) : option pystr :=
  match op with
  | Truncate => Some []
  | Append c => Some (match f with Some t => t | None => [] end ++ [c])
  end.

Definition crash_after (old : option pystr) (ops : list disk_op) (k : nat) : option pystr :=
  fold_left apply_op (firstn k ops) old.

(** ** Concrete inputs *)

Definition title_canon : pystr :=
  of_ascii "[Selling][Canon] " ++ sale_marker ++ of_ascii " EOS 5D Mark III".

Definition body_4500 : pystr := of_ascii "...price 4500 and also 100...".

Definition post_ok : post_doc :=
  mk_post_doc [of_ascii "seller (Seller)"; title_canon; of_ascii "Sat Jan  2 10:00:00 2016"]
              (Some [body_4500]).

Definition title_reply : pystr := of_ascii "Re: [WTB] Nikon F3".

Definition post_reply : post_doc :=
  mk_post_doc [of_ascii "seller"; title_reply; of_ascii "Sat Jan  2 10:00:00 2016"]
              (Some [of_ascii "no price here"]).

Definition post_href : pystr := of_ascii "/bbs/photo-buy/M.1451700000.A.123.html".

Definition listing_dup : listing_doc :=
  mk_listing_doc [Some post_href; None; Some post_href]
                 [of_ascii "/bbs/photo-buy/index977.html"; of_ascii "/bbs/photo-buy/index979.html"].

Definition env_dup : env :=
  mk_env (fun _ => Some 1451700000) (fun _ => Some listing_dup)
         (fun _ => Some post_ok) (fun _ => Written).

Definition page_978 : pystr := of_ascii "http://www.ptt.cc/bbs/photo-buy/index978.html".
Definition page_p5 : pystr := of_ascii "http://www.ptt.cc/bbs/photo-buy/index5.html".
Definition page_p4 : pystr := of_ascii "http://www.ptt.cc/bbs/photo-buy/index4.html".

(** A [cache] file holding only a space and a newline. *)
Definition blank_text : pystr := [ch_space; ch_newline].

(** The same pages, on a disk where no file can be opened for writing. *)
Definition env_nowrite : env :=
  mk_env (fun _ => Some 1451700000) (fun _ => Some listing_dup)
         (fun _ => Some post_ok) (fun _ => OpenFails).

(** The same pages, on a disk where the csv files are written but writing
    the [cache] file raises after its first 7 characters. *)
Definition env_cachefail : env :=
  mk_env (fun _ => Some 1451700000) (fun _ => Some listing_dup) (fun _ => Some post_ok)
         (fun fn => if pystr_eq_dec fn CACHE_FILE then WriteFails 7 else Written).

(** A sale post whose only hundred-rounded number is ["000"]. *)
Definition post_zero : post_doc :=
  mk_post_doc [of_ascii "seller"; title_canon; of_ascii "Sat Jan  2 10:00:00 2016"]
              (Some [of_ascii "price 000 only"]).

(** ** What a crawl leaves on disk *)

(** The events that write a file. *)
Definition is_output (ev : event) : bool :=
  match ev with
  | WriteCsv _ _ | WriteCsvFailed _ _ | WriteCache _ => true
  | Print _ | Get _ => false
  end.

(** The events that open a csv file for writing. *)
Definition is_csv (ev : event) : bool :=
  match ev with WriteCsv _ _ | WriteCsvFailed _ _ => true | _ => false end.

Definition is_cache_write (ev : event) : bool :=
  match ev with WriteCache _ => true | _ => false end.

Definition count_events (p : event -> bool) (l : list event) : nat := length (filter p l).

(** The line [__fetch_page_urls] prints for a row. *)
Definition row_msg (row : option pystr) : event :=
  match row with Some href => Print (MsgFound href) | None => Print MsgSkipped end.

(** The [href]s of the rows that have a link, in row order. *)
Definition link_hrefs (rs : list (option pystr)) : list pystr :=
  flat_map (fun r => match r with Some h => [h] | None => [] end) rs.

(** The requests for the url [u]. *)
Definition is_get (u : pystr) (ev : event) : bool :=
  match ev with Get v => if pystr_eq_dec v u then true else false | _ => false end.

(** The rows of the csv files written in full, in order. *)
Definition csv_rows (l : list event) : list record :=
  flat_map (fun ev => match ev with WriteCsv _ rs => rs | _ => [] end) l.

(** The post [href]s the listing page [p] lists. *)
Definition page_hrefs (e : env) (p : pystr) : list pystr :=
  match get_listing e p with Some d => link_hrefs (rows d) | None => [] end.

(** The listing pages [n] iterations of the [for] loop of
    [PttCrawler.fetch] visit from [u], following the second paging link. *)
Fixpoint page_chain (e : env) (n : nat) (u : pystr) : list pystr :=
  match n with
  | O => []
  | S n' =>
      u :: match get_listing e u with
           | Some d => match nth_error (paging_links d) 1 with
                       | Some nx => page_chain e n' (URL_PREFIX ++ nx)
                       | None => []
                       end
           | None => []
           end
  end.

(** A listing page's url as the crawler builds it. *)
Definition listing_url (board_name index : pystr) : pystr :=
  URL_PREFIX ++ of_ascii "/bbs/" ++ board_name ++ of_ascii "/index" ++ index ++ of_ascii ".html".

(** * The analysis script (main.py)

    The frame [Data("./source/ptt/records").record] is a list of rows.
    What comes from libraries is a parameter: Python's [str.lower] (the
    full Unicode case mapping), pandas' [Series.str.contains(keyword)] on
    one present name, [sort_values("time")], the [name] cell of a row
    ([None] for a missing value, NaN), and whether
    [camera_data.plot("time", "price")] and [fig.savefig(path)] succeed. *)
Module Analysis.

Record lib (Row : Type) := mk_lib {
  py_lower : pystr -> pystr;
  str_contains : pystr -> pystr -> bool;
  sort_by_time : list Row -> list Row;
  row_name : Row -> option pystr;
  plot_ok : list Row -> pystr -> bool
}.
Arguments mk_lib {Row}.
Arguments py_lower {Row}.
Arguments str_contains {Row}.
Arguments sort_by_time {Row}.
Arguments row_name {Row}.
Arguments plot_ok {Row}.

Fixpoint replace_fuel (fuel : nat) (old new s : pystr) : pystr :=
  match fuel with
  | O => s
  | S f =>
      match s with
      | [] => []
      | c :: s' =>
          if is_prefix old s then new ++ replace_fuel f old new (skipn (length old) s)
          else c :: replace_fuel f old new s'
      end
  end.

(** [s.replace(old, new)] for a nonempty [old] (the only kind the script
    uses): the occurrences of [old], left to right and not overlapping,
    are replaced by [new]. Each step consumes at least one character, so
    [length s] steps suffice. *)
Definition py_replace (old new s : pystr) : pystr := replace_fuel (length s) old new s.

(** The literal ["[^a-z0-9 ]"] (a [str.replace] argument, not a pattern). *)
Definition NON_ALNUM : pystr := of_ascii "[^a-z0-9 ]".
Definition ch_hyphen : Z := 45.

(** The [keywords] of [Data.search]. *)
Definition keywords {Row} (L : lib Row) (model_name : pystr) : list pystr :=
  map (py_replace [ch_hyphen] [])
      (split_ws (py_replace NON_ALNUM [] (py_lower L model_name))).

(** [self.record.name.str.contains(keyword)]: NaN on a missing name. *)
Definition contains_col {Row} (L : lib Row) (frame : list Row) (keyword : pystr)
  : list (option bool) :=
  map (fun r => match row_name L r with
                | Some n => Some (str_contains L keyword n)
                | None => None
                end) frame.

(** [self.record[matches == True]]: NaN is not equal to [True]. *)
Definition select {Row} (frame : list Row) (matches : list (option bool)) : list Row :=
  map fst (filter (fun p => match snd p with Some true => true | _ => false end)
                  (combine frame matches)).

(** [Data.search] *)
Definition search {Row} (L : lib Row) (frame : list Row) (model_name : pystr)
  : result (list Row) :=
  let ks := keywords L model_name in
  k0 <-? nth_or_index_error ks 0 ;;
  let matches := fold_left (fun _ keyword => contains_col L frame keyword) ks
                           (contains_col L frame k0) in
  Ok (sort_by_time L (select frame matches)).

Fixpoint readlines_aux (s cur : pystr) : list pystr :=
  match s with
  | [] => match cur with [] => [] | _ => [rev cur] end
  | c :: s' =>
      if c =? ch_newline then rev (c :: cur) :: readlines_aux s' []
      else readlines_aux s' (c :: cur)
  end.

(** [fin.readlines()] on the decoded text: every line keeps its ['\n'];
    a last line without one is kept when it is not empty. *)
Definition readlines (text : pystr) : list pystr := readlines_aux text [].

(** [__read_camera_list]: the text of [camera.txt], [None] when it
    cannot be opened. *)
Definition read_camera_list (file : option pystr) : result (list pystr) :=
  match file with
  | Some text => Ok (map strip (readlines text))
  | None => Err OSError
  end.

(** What the script prints and saves. *)
Inductive plot_event (Row : Type) :=
| PrintModel (camera_model : pystr)          (* "Camera Model: %s" *)
| PrintData (camera_data : list Row)         (* print(camera_data) *)
| PrintInsufficient (camera_model : pystr)   (* "Insufficient data for %s, skipped" *)
| SaveFig (path : pystr).                    (* fig.savefig(path) *)
Arguments PrintModel {Row}.
Arguments PrintData {Row}.
Arguments PrintInsufficient {Row}.
Arguments SaveFig {Row}.

(** [camera_data.size]: rows times columns, and the frame has seven
    columns ([index], added by [reset_index], and the six named ones). *)
Definition size {Row} (camera_data : list Row) : nat := length camera_data * 7.

(** [plot] *)
Definition plot {Row} (L : lib Row) (camera_model : pystr) (camera_data : list Row)
  : result unit * list (plot_event Row) :=
  let printed := [PrintModel camera_model; PrintData camera_data] in
  if Nat.eqb (size camera_data) 0 then (Ok tt, printed ++ [PrintInsufficient camera_model])
  else
    let path := of_ascii "plot/" ++ camera_model ++ of_ascii ".jpg" in
    if plot_ok L camera_data path then (Ok tt, printed ++ [SaveFig path])
    else (Err OSError, printed).

(** The [for] loop of [main]. *)
Fixpoint plot_all {Row} (L : lib Row) (frame : list Row) (camera_list : list pystr)
  : result unit * list (plot_event Row) :=
  match camera_list with
  | [] => (Ok tt, [])
  | camera_model :: rest =>
      match search L frame camera_model with
      | Err x => (Err x, [])
      | Ok camera_data =>
          match plot L camera_model camera_data with
          | (Ok _, evs) => let (r, evs') := plot_all L frame rest in (r, evs ++ evs')
          | (Err x, evs) => (Err x, evs)
          end
      end
  end.

(** [main], after [Data("./source/ptt/records")] has built [frame]. *)
Definition main {Row} (L : lib Row) (frame : list Row) (camera_file : option pystr)
  : result unit * list (plot_event Row) :=
  match read_camera_list camera_file with
  | Ok camera_list => plot_all L frame camera_list
  | Err x => (Err x, [])
  end.

End Analysis.

(** A library instance for the analysis script's examples: the ASCII part
    of [str.lower], rows of a name and a time, substring search (what
    [str.contains] does for a keyword of letters and digits), and a sort
    by time (insertion, stable). *)
Definition ascii_lower (s : pystr) : pystr :=
  map (fun c => if (65 <=? c) && (c <=? 90) then c + 32 else c) s.

Fixpoint insert_by_time (r : pystr * Z) (rs : list (pystr * Z)) : list (pystr * Z) :=
  match rs with
  | [] => [r]
  | r' :: rs' => if snd r' <=? snd r then r' :: insert_by_time r rs' else r :: rs
  end.

Definition sort_rows_by_time (rs : list (pystr * Z)) : list (pystr * Z) :=
  fold_right insert_by_time [] rs.

Definition ascii_lib : Analysis.lib (pystr * Z) :=
  Analysis.mk_lib ascii_lower (fun keyword n => contains n keyword) sort_rows_by_time
                  (fun r => Some (fst r)) (fun _ _ => true).

(** A listing page with one row without a link and no paging bar. *)
Definition env_nolinks : env :=
  mk_env (fun _ => None) (fun _ => Some (mk_listing_doc [None] [])) (fun _ => None)
         (fun _ => Written).

Definition frame_f3 : list (pystr * Z) :=
  [(of_ascii "canon f3 body", 2); (of_ascii "nikon fm2", 1)].

(** * Properties *)

(** ** [rfind] and [__format_name] *)

Lemma rfind_aux_snoc (l : pystr) (x c i best : Z) :
  rfind_aux (l ++ [x]) c i best =
  if x =? c then i + Z.of_nat (length l) else rfind_aux l c i best.
Proof.
  revert i best; induction l as [|a l IH]; intros i best; simpl.
  - destruct (x =? c); lia.
  - rewrite IH. destruct (x =? c); lia.
Qed.

Lemma rfind_snoc (l : pystr) (x c : Z) :
  rfind (l ++ [x]) c = if x =? c then Z.of_nat (length l) else rfind l c.
Proof. unfold rfind. rewrite rfind_aux_snoc. destruct (x =? c); lia. Qed.

Lemma rfind_bounds (l : pystr) (c : Z) : -1 <= rfind l c < Z.of_nat (length l).
Proof.
  induction l as [|x l IH] using rev_ind.
  - unfold rfind; simpl; lia.
  - rewrite rfind_snoc, length_app; simpl.
    destruct (x =? c); lia.
Qed.

Lemma skipn_after (pre post : pystr) (c : Z) :
  skipn (Z.to_nat (Z.of_nat (length pre) + 1)) (pre ++ c :: post) = post.
Proof.
  replace (Z.to_nat (Z.of_nat (length pre) + 1)) with (S (length pre)) by lia.
  induction pre as [|a pre IH]; simpl; auto.
Qed.

(** The later of the last [']'] and the last ['］'] splits the title. *)
Lemma last_bracket_split (t : pystr) :
  (exists pre c post, t = pre ++ c :: post /\ is_close c = true
     /\ forallb (fun x => negb (is_close x)) post = true
     /\ Z.max (rfind t ch_rbracket) (rfind t ch_fw_rbracket) = Z.of_nat (length pre))
  \/ (forallb (fun x => negb (is_close x)) t = true
      /\ Z.max (rfind t ch_rbracket) (rfind t ch_fw_rbracket) = -1).
Proof.
  induction t as [|x t IH] using rev_ind.
  - right. split; reflexivity.
  - rewrite !rfind_snoc.
    destruct (is_close x) eqn:Hx.
    + left. exists t, x, []. split; [reflexivity|]. split; [exact Hx|].
      split; [reflexivity|].
      pose proof (rfind_bounds t ch_rbracket). pose proof (rfind_bounds t ch_fw_rbracket).
      unfold is_close in Hx.
      destruct (x =? ch_rbracket) eqn:E1, (x =? ch_fw_rbracket) eqn:E2;
        try discriminate; rewrite ?Z.eqb_eq in *; subst; unfold ch_rbracket, ch_fw_rbracket in *;
        try discriminate; lia.
    + unfold is_close in Hx. apply orb_false_iff in Hx as [E1 E2].
      rewrite E1, E2.
      destruct IH as [(pre & c & post & -> & Hc & Hpost & Hmax)|(Ht & Hmax)].
      * left. exists pre, c, (post ++ [x]).
        split; [rewrite <- app_assoc; reflexivity|].
        split; [exact Hc|]. split; [|exact Hmax].
        rewrite forallb_app, Hpost; simpl. unfold is_close. rewrite E1, E2. reflexivity.
      * right. split; [|exact Hmax].
        rewrite forallb_app, Ht; simpl. unfold is_close. rewrite E1, E2. reflexivity.
Qed.

(** C4 (amended): for a title that contains the sale marker ['出售'] and
    does not start with ["Re:"], the name is the part of the title strictly
    after the later of its last [']'] and its last ['］'] (the whole title
    when it has neither), stripped of whitespace. *)
Theorem format_name_after_last_bracket (t : pystr) :
  contains t sale_marker = true ->
  startswith t (of_ascii "Re:") = false ->
  (exists pre c post, t = pre ++ c :: post /\ is_close c = true
     /\ forallb (fun x => negb (is_close x)) post = true
     /\ format_name t = Ok (strip post))
  \/ (forallb (fun x => negb (is_close x)) t = true /\ format_name t = Ok (strip t)).
Proof.
  intros Hsale Hre. unfold format_name. rewrite Hsale, Hre. simpl.
  destruct (last_bracket_split t) as [(pre & c & post & Ht & Hc & Hpost & Hmax)|(Ht & Hmax)].
  - left. exists pre, c, post. repeat split; auto.
    rewrite Hmax, Ht, skipn_after. reflexivity.
  - right. split; auto. rewrite Hmax. reflexivity.
Qed.

Lemma format_name_after_last_bracket_witness :
  contains title_canon sale_marker = true /\
  startswith title_canon (of_ascii "Re:") = false /\
  format_name title_canon = Ok (sale_marker ++ of_ascii " EOS 5D Mark III") /\
  ((exists pre c post, title_canon = pre ++ c :: post /\ is_close c = true
     /\ forallb (fun x => negb (is_close x)) post = true
     /\ format_name title_canon = Ok (strip post))
  \/ (forallb (fun x => negb (is_close x)) title_canon = true
      /\ format_name title_canon = Ok (strip title_canon))).
Proof.
  split; [vm_compute; reflexivity|]. split; [vm_compute; reflexivity|].
  split; [vm_compute; reflexivity|].
  apply format_name_after_last_bracket; vm_compute; reflexivity.
Defined.

(** C4 counterexample: the title ["[Selling][Canon] 出售 EOS 5D Mark III"]
    gives the name ["出售 EOS 5D Mark III"], not ["EOS 5D Mark III"]: the
    sale marker after the last bracket stays in the name. *)
Lemma format_name_canon_keeps_marker :
  format_name title_canon = Ok (sale_marker ++ of_ascii " EOS 5D Mark III") /\
  format_name title_canon <> Ok (of_ascii "EOS 5D Mark III").
Proof. split; vm_compute; [reflexivity | discriminate]. Qed.

(** ** The price regular expression *)

Lemma decimal_in_range (zs : list Z) (c v : Z) :
  decimal_in zs c = Some v -> 0 <= v < 10.
Proof.
  induction zs as [|z zs IH]; simpl; [discriminate|].
  destruct ((z <=? c) && (c <? z + 10)) eqn:E; [|exact IH].
  intros H; injection H as <-. apply andb_true_iff in E as [E1 E2].
  apply Z.leb_le in E1; apply Z.ltb_lt in E2; lia.
Qed.

Lemma digit_value_nonneg (c : Z) : 0 <= digit_value c.
Proof.
  unfold digit_value, decimal. destruct (decimal_in nd_zeros c) eqn:E; [|lia].
  apply decimal_in_range in E; lia.
Qed.

Lemma int_value_acc (m : pystr) (acc : Z) :
  fold_left (fun acc c => acc * 10 + digit_value c) m acc
  = acc * 10 ^ Z.of_nat (length m) + int_value m.
Proof.
  unfold int_value. revert acc; induction m as [|c m IH]; intros acc; cbn [fold_left length].
  - lia.
  - rewrite (IH (acc * 10 + digit_value c)), (IH (0 * 10 + digit_value c)).
    rewrite Nat2Z.inj_succ, Z.pow_succ_r by lia. lia.
Qed.

Lemma int_value_nonneg (m : pystr) : 0 <= int_value m.
Proof.
  induction m as [|c m IH] using rev_ind; [unfold int_value; simpl; lia|].
  unfold int_value in *. rewrite fold_left_app; simpl.
  pose proof (digit_value_nonneg c); lia.
Qed.

Lemma int_value_00 (p : pystr) : int_value (p ++ [ch_zero; ch_zero]) = 100 * int_value p.
Proof.
  unfold int_value. rewrite fold_left_app. cbn [fold_left].
  replace (digit_value ch_zero) with 0 by reflexivity. lia.
Qed.

Lemma is_digit_zero : is_digit ch_zero = true.
Proof. reflexivity. Qed.

Lemma digit_run_app_le (m b : pystr) :
  forallb is_digit m = true -> (length m <= digit_run (m ++ b))%nat.
Proof.
  induction m as [|c m IH]; simpl; [lia|].
  intros H; apply andb_true_iff in H as [Hc Hm]. rewrite Hc. specialize (IH Hm). lia.
Qed.

Lemma digit_run_prefix (s : pystr) (L : nat) :
  (L <= digit_run s)%nat -> forallb is_digit (firstn L s) = true.
Proof.
  revert L; induction s as [|c s IH]; intros L HL; simpl in *.
  - rewrite firstn_nil. reflexivity.
  - destruct L as [|L]; [reflexivity|]. simpl.
    destruct (is_digit c) eqn:Hc; [|lia]. simpl. apply IH; lia.
Qed.

Lemma digit_run_le_length (s : pystr) : (digit_run s <= length s)%nat.
Proof. induction s as [|c s IH]; simpl; [lia|]. destruct (is_digit c); lia. Qed.

Lemma digit_run_stop (s : pystr) :
  match nth_error s (digit_run s) with Some c => is_digit c = false | None => True end.
Proof.
  induction s as [|c s IH]; simpl; [exact I|].
  destruct (is_digit c) eqn:Hc; simpl; [exact IH|exact Hc].
Qed.

Lemma char_at_zero_digit_run (s : pystr) (k : nat) :
  char_at s k ch_zero = true -> (k < digit_run s)%nat \/ (digit_run s < k)%nat.
Proof.
  intros H. pose proof (digit_run_stop s) as Hs. unfold char_at in H.
  destruct (Nat.lt_total k (digit_run s)) as [Hlt|[Heq|Hgt]]; auto.
  subst k. destruct (nth_error s (digit_run s)) as [x|]; [|discriminate].
  apply Z.eqb_eq in H; subst x. rewrite is_digit_zero in Hs. discriminate.
Qed.

Lemma backtrack_00_some (s : pystr) (k k' : nat) :
  backtrack_00 s k = Some k' ->
  (1 <= k' <= k)%nat /\ char_at s k' ch_zero = true /\ char_at s (S k') ch_zero = true /\
  (forall j, (k' < j <= k)%nat -> char_at s j ch_zero && char_at s (S j) ch_zero = false).
Proof.
  induction k as [|k IH]; simpl; [discriminate|].
  destruct (char_at s (S k) ch_zero && char_at s (S (S k)) ch_zero) eqn:E.
  - intros H; injection H as <-. apply andb_true_iff in E as [E1 E2].
    split; [lia|]. split; [exact E1|]. split; [exact E2|]. intros j Hj; lia.
  - intros H. destruct (IH H) as (Hk & H1 & H2 & Hj).
    split; [lia|]. split; [exact H1|]. split; [exact H2|]. intros j Hj'.
    destruct (Nat.eq_dec j (S k)) as [->|Hne]; [exact E|]. apply Hj; lia.
Qed.

Lemma backtrack_00_none (s : pystr) (k : nat) :
  backtrack_00 s k = None ->
  forall j, (1 <= j <= k)%nat -> char_at s j ch_zero && char_at s (S j) ch_zero = false.
Proof.
  induction k as [|k IH]; simpl; intros H j Hj; [lia|].
  destruct (char_at s (S k) ch_zero && char_at s (S (S k)) ch_zero) eqn:E; [discriminate|].
  destruct (Nat.eq_dec j (S k)) as [->|Hne]; [exact E|]. apply IH; auto; lia.
Qed.

Lemma firstn_snoc_nth (s : pystr) (k : nat) (x : Z) :
  nth_error s k = Some x -> firstn (S k) s = firstn k s ++ [x].
Proof.
  revert s; induction k as [|k IH]; intros [|c s] H; simpl in *; try discriminate.
  - injection H as ->. reflexivity.
  - rewrite (IH s H). reflexivity.
Qed.

(** A hundred-rounded prefix of [s] is a place where [\d+00] can stop. *)
Lemma hundred_prefix (m b : pystr) :
  hundred_rounded m ->
  exists j, length m = (j + 2)%nat /\ (1 <= j)%nat /\ (j + 2 <= digit_run (m ++ b))%nat /\
    char_at (m ++ b) j ch_zero && char_at (m ++ b) (S j) ch_zero = true.
Proof.
  intros (Hlen & Hdig & p & ->). exists (length p).
  rewrite length_app in *; simpl in *.
  split; [lia|]. split; [lia|].
  split.
  - pose proof (digit_run_app_le _ b Hdig). rewrite length_app in H; simpl in H. lia.
  - unfold char_at. rewrite <- app_assoc.
    rewrite (nth_error_app2 p _ (le_n _)), Nat.sub_diag.
    rewrite (nth_error_app2 p _ (Nat.le_succ_diag_r _)).
    replace (S (length p) - length p)%nat with 1%nat by lia. reflexivity.
Qed.

(** At one start position, [\d+00] finds the longest hundred-rounded
    prefix. *)
Lemma match_price_at_some (s m : pystr) :
  match_price_at s = Some m ->
  hundred_rounded m /\ (exists b, s = m ++ b) /\
  (forall m' b', s = m' ++ b' -> hundred_rounded m' -> (length m' <= length m)%nat).
Proof.
  unfold match_price_at. destruct (backtrack_00 s (digit_run s)) as [k|] eqn:Hb; [|discriminate].
  intros H; injection H as <-.
  destruct (backtrack_00_some _ _ _ Hb) as (Hk & H1 & H2 & Hmax).
  assert (Hk2 : (k + 2 <= digit_run s)%nat).
  { destruct (char_at_zero_digit_run _ _ H1), (char_at_zero_digit_run _ _ H2); lia. }
  pose proof (digit_run_le_length s) as Hls.
  assert (Hm : length (firstn (k + 2) s) = (k + 2)%nat) by (rewrite length_firstn; lia).
  split; [|split].
  - split; [lia|]. split; [apply digit_run_prefix; lia|].
    exists (firstn k s).
    unfold char_at in H1, H2.
    destruct (nth_error s k) as [x|] eqn:Ex; [|discriminate].
    destruct (nth_error s (S k)) as [y|] eqn:Ey; [|discriminate].
    apply Z.eqb_eq in H1, H2; subst x y.
    replace (k + 2)%nat with (S (S k)) by lia.
    rewrite (firstn_snoc_nth _ _ _ Ey), (firstn_snoc_nth _ _ _ Ex), <- app_assoc.
    reflexivity.
  - exists (skipn (k + 2) s). symmetry; apply firstn_skipn.
  - intros m' b' Hs Hh. rewrite Hm.
    destruct (hundred_prefix m' b' Hh) as (j & Hj & Hj1 & Hjr & Hjc).
    rewrite <- Hs in Hjr, Hjc.
    destruct (Nat.le_gt_cases j k) as [Hle|Hgt]; [lia|].
    rewrite (Hmax j) in Hjc by lia. discriminate.
Qed.

Lemma match_price_at_none (s : pystr) :
  match_price_at s = None -> forall m b, s = m ++ b -> ~ hundred_rounded m.
Proof.
  unfold match_price_at. destruct (backtrack_00 s (digit_run s)) eqn:Hb; [discriminate|].
  intros _ m b Hs Hh.
  destruct (hundred_prefix m b Hh) as (j & Hj & Hj1 & Hjr & Hjc).
  rewrite <- Hs in Hjr, Hjc.
  rewrite (backtrack_00_none _ _ Hb j) in Hjc by lia. discriminate.
Qed.

Lemma search_price_from_some (s : pystr) (i j : nat) (m : pystr) :
  search_price_from s i = Some (j, m) ->
  exists a b, s = a ++ m ++ b /\ j = (i + length a)%nat /\ hundred_rounded m /\
    (forall a' m' b', s = a' ++ m' ++ b' -> hundred_rounded m' ->
       (length a <= length a')%nat /\ (length a' = length a -> (length m' <= length m)%nat)).
Proof.
  revert i; induction s as [|x s IH]; intros i H.
  - discriminate.
  - simpl in H. destruct (match_price_at (x :: s)) as [m0|] eqn:Hm.
    + injection H as <- <-.
      destruct (match_price_at_some _ _ Hm) as (Hh & (b & Hb) & Hmax).
      exists [], b. split; [exact Hb|]. split; [simpl; lia|]. split; [exact Hh|].
      intros a' m' b' Hs Hh'. split; [simpl; lia|].
      intros Ha. destruct a'; [|discriminate]. exact (Hmax m' b' Hs Hh').
    + destruct (IH (S i) H) as (a & b & Hs & Hj & Hh & Hmin).
      exists (x :: a), b. split; [simpl; rewrite Hs; reflexivity|].
      split; [simpl; lia|]. split; [exact Hh|].
      intros [|y a'] m' b' Hs' Hh'.
      * exfalso. exact (match_price_at_none _ Hm m' b' Hs' Hh').
      * injection Hs' as -> Hs'. destruct (Hmin a' m' b' Hs' Hh') as [H1 H2].
        simpl. split; [lia|]. intros Ha. apply H2. lia.
Qed.

Lemma search_price_from_none (s : pystr) (i : nat) :
  search_price_from s i = None -> forall a m b, s = a ++ m ++ b -> ~ hundred_rounded m.
Proof.
  revert i; induction s as [|x s IH]; intros i H a m b Hs Hh.
  - destruct a; [|discriminate]. destruct m; [|discriminate].
    destruct Hh as (Hl & _). simpl in Hl. lia.
  - simpl in H. destruct (match_price_at (x :: s)) eqn:Hm; [discriminate|].
    destruct a as [|y a].
    + exact (match_price_at_none _ Hm m b Hs Hh).
    + injection Hs as -> Hs. exact (IH (S i) H a m b Hs Hh).
Qed.

(** [re.search] finds the leftmost hundred-rounded substring, and the
    longest one at that position; [None] when there is none. *)
Lemma search_price_first_match (content : pystr) :
  match search_price content with
  | Some (i, m) =>
      exists a b, content = a ++ m ++ b /\ length a = i /\ hundred_rounded m /\
        (forall a' m' b', content = a' ++ m' ++ b' -> hundred_rounded m' ->
           (i <= length a')%nat /\ (length a' = i -> (length m' <= length m)%nat))
  | None => forall a m b, content = a ++ m ++ b -> ~ hundred_rounded m
  end.
Proof.
  unfold search_price. destruct (search_price_from content 0) as [[i m]|] eqn:H.
  - destruct (search_price_from_some _ _ _ _ H) as (a & b & Hs & Hi & Hh & Hmin).
    simpl in Hi. subst i. exists a, b. split; [exact Hs|]. split; [reflexivity|].
    split; [exact Hh|]. intros a' m' b' Hs' Hh'. exact (Hmin a' m' b' Hs' Hh').
  - exact (search_price_from_none _ _ H).
Qed.

(** ** [PttRecord.__init__] *)

Lemma ptt_record_ok_inv (pd : pystr -> option Z) (dom : post_doc) (u : pystr) (r : record) :
  ptt_record pd dom u = Ok r ->
  exists texts i m, main_content dom = Some texts /\
    search_price (join [ch_space] texts) = Some (i, m) /\
    int_value m <> 0 /\ price r = int_value m /\ url r = u.
Proof.
  unfold ptt_record, rbind, nth_or_index_error.
  destruct (main_content dom) as [texts|]; [|discriminate].
  destruct (nth_error (meta_values dom) 1); [|discriminate].
  destruct (format_name _); [|discriminate].
  destruct (nth_error (meta_values dom) 0); [|discriminate].
  destruct (nth_error (split_ws _) 0); [|discriminate].
  destruct (nth_error (meta_values dom) 2); [|discriminate].
  destruct (pd _); [|discriminate].
  destruct (search_price (join [ch_space] texts)) as [[i m]|] eqn:Hs; [|discriminate].
  destruct (int_value m =? 0) eqn:Hz; [discriminate|].
  intros H; injection H as <-. apply Z.eqb_neq in Hz.
  exists texts, i, m. repeat split; auto.
Qed.

(** C3: the price of every record extraction builds is the integer value
    of the first hundred-rounded substring of the post's body (three or
    more decimal digits ending in two zeros): no hundred-rounded substring
    starts further left, and none at the same position is longer. *)
Theorem extracted_price_first_match (pd : pystr -> option Z) (dom : post_doc) (u : pystr)
  (r : record) :
  ptt_record pd dom u = Ok r ->
  exists texts a m b, main_content dom = Some texts /\
    join [ch_space] texts = a ++ m ++ b /\ hundred_rounded m /\ price r = int_value m /\
    (forall a' m' b', join [ch_space] texts = a' ++ m' ++ b' -> hundred_rounded m' ->
       (length a <= length a')%nat /\ (length a' = length a -> (length m' <= length m)%nat)).
Proof.
  intros H. destruct (ptt_record_ok_inv _ _ _ _ H) as (texts & i & m & Hc & Hs & _ & Hp & _).
  pose proof (search_price_first_match (join [ch_space] texts)) as Hf. rewrite Hs in Hf.
  destruct Hf as (a & b & Hab & Ha & Hh & Hmin). subst i.
  exists texts, a, m, b. split; [exact Hc|]. split; [exact Hab|]. split; [exact Hh|].
  split; [exact Hp|]. exact Hmin.
Qed.

Lemma extracted_price_first_match_witness :
  ptt_record (fun _ => Some 0) post_ok (of_ascii "u") =
    Ok (mk_record (sale_marker ++ of_ascii " EOS 5D Mark III") 4500 (of_ascii "ptt")
                  (of_ascii "seller") 0 (of_ascii "u")) /\
  exists texts a m b, main_content post_ok = Some texts /\
    join [ch_space] texts = a ++ m ++ b /\ hundred_rounded m /\
    price (mk_record (sale_marker ++ of_ascii " EOS 5D Mark III") 4500 (of_ascii "ptt")
                  (of_ascii "seller") 0 (of_ascii "u")) = int_value m /\
    (forall a' m' b', join [ch_space] texts = a' ++ m' ++ b' -> hundred_rounded m' ->
       (length a <= length a')%nat /\ (length a' = length a -> (length m' <= length m)%nat)).
Proof.
  split; [vm_compute; reflexivity|].
  apply (extracted_price_first_match (fun _ => Some 0) post_ok (of_ascii "u")).
  vm_compute; reflexivity.
Defined.

(** C3, the spec's example: in ["...price 4500 and also 100..."] the
    first match is ["4500"], and the record's price is [4500]. *)
Lemma body_4500_first_match :
  search_price body_4500 = Some (9%nat, of_ascii "4500") /\
  int_value (of_ascii "4500") = 4500.
Proof. split; vm_compute; reflexivity. Qed.

(** C7: every record extraction builds has a positive price that is a
    multiple of 100. A zero price is rejected instead: when the first
    hundred-rounded number of the body is zero (such as ["000"]), no
    record is built, and when the title and header fields pass their
    checks, extraction raises [InvalidPrice] (the ZeroPrice failure). *)
Theorem ptt_record_price_positive_hundred (pd : pystr -> option Z) (dom : post_doc)
  (u : pystr) :
  (forall r, ptt_record pd dom u = Ok r -> 0 < price r /\ price r mod 100 = 0) /\
  (forall texts i m, main_content dom = Some texts ->
     search_price (join [ch_space] texts) = Some (i, m) -> int_value m = 0 ->
     (forall r, ptt_record pd dom u <> Ok r) /\
     (forall a t d rest dt, meta_values dom = a :: t :: d :: rest -> pd d = Some dt ->
        split_ws a <> [] -> contains t sale_marker = true ->
        startswith t (of_ascii "Re:") = false ->
        failure_of (ptt_record pd dom u) = Some F_ZeroPrice)).
Proof.
  split.
  - intros r H.
    destruct (ptt_record_ok_inv _ _ _ _ H) as (texts & i & m & _ & Hs & Hz & Hp & _).
    pose proof (search_price_first_match (join [ch_space] texts)) as Hf. rewrite Hs in Hf.
    destruct Hf as (a & b & _ & _ & (_ & _ & p & ->) & _).
    rewrite Hp. rewrite int_value_00 in *. pose proof (int_value_nonneg p).
    split; [lia|]. rewrite Z.mul_comm. apply Z_mod_mult.
  - intros texts i m Hc Hs Hz. split.
    + intros r H.
      destruct (ptt_record_ok_inv _ _ _ _ H) as (texts' & i' & m' & Hc' & Hs' & Hz' & _).
      rewrite Hc in Hc'. injection Hc' as <-. rewrite Hs in Hs'. injection Hs' as <- <-.
      exact (Hz' Hz).
    + intros a t d rest dt Hm Hd Ha Hsm Hre.
      unfold ptt_record, rbind, nth_or_index_error. rewrite Hc, Hm. cbn [nth_error].
      unfold format_name. rewrite Hsm, Hre. cbn [negb].
      destruct (split_ws a) as [|au aus]; [congruence|]. cbn [nth_error].
      rewrite Hd, Hs, Hz. reflexivity.
Qed.

Lemma ptt_record_price_positive_hundred_witness :
  ptt_record (fun _ => Some 0) post_ok (of_ascii "u") =
    Ok (mk_record (sale_marker ++ of_ascii " EOS 5D Mark III") 4500 (of_ascii "ptt")
                  (of_ascii "seller") 0 (of_ascii "u")) /\
  (0 < 4500 /\ 4500 mod 100 = 0) /\
  main_content post_zero = Some [of_ascii "price 000 only"] /\
  search_price (join [ch_space] [of_ascii "price 000 only"]) = Some (6%nat, of_ascii "000") /\
  int_value (of_ascii "000") = 0 /\
  failure_of (ptt_record (fun _ => Some 0) post_zero (of_ascii "u")) = Some F_ZeroPrice.
Proof.
  assert (H : ptt_record (fun _ => Some 0) post_ok (of_ascii "u") =
    Ok (mk_record (sale_marker ++ of_ascii " EOS 5D Mark III") 4500 (of_ascii "ptt")
                  (of_ascii "seller") 0 (of_ascii "u"))) by (vm_compute; reflexivity).
  assert (Hc : main_content post_zero = Some [of_ascii "price 000 only"]) by reflexivity.
  assert (Hs : search_price (join [ch_space] [of_ascii "price 000 only"])
               = Some (6%nat, of_ascii "000")) by (vm_compute; reflexivity).
  assert (Hz : int_value (of_ascii "000") = 0) by (vm_compute; reflexivity).
  split; [exact H|].
  split; [exact (proj1 (ptt_record_price_positive_hundred _ _ _ ) _ H)|].
  split; [exact Hc|]. split; [exact Hs|]. split; [exact Hz|].
  destruct (ptt_record_price_positive_hundred (fun _ => Some 0) post_zero (of_ascii "u"))
    as [_ H2].
  apply (proj2 (H2 _ _ _ Hc Hs Hz) (of_ascii "seller") title_canon
           (of_ascii "Sat Jan  2 10:00:00 2016") [] 0 eq_refl eq_refl);
    vm_compute; [discriminate|reflexivity|reflexivity].
Defined.

(** C5 (amended): for a post with a [#main-content] node and at least
    author and title fields, extraction checks in order: a title without
    the sale marker fails with NotASalePost; a title with it that starts
    with ["Re:"] fails with NotOriginalPost; a sale title that is no reply,
    with an author token and a parsable date, whose body has no
    hundred-rounded substring fails with PriceNotFound. *)
Theorem ptt_record_failure_order (pd : pystr -> option Z) (dom : post_doc) (u : pystr)
  (texts : list pystr) (a t : pystr) (rest : list pystr) :
  main_content dom = Some texts -> meta_values dom = a :: t :: rest ->
  (contains t sale_marker = false ->
     failure_of (ptt_record pd dom u) = Some F_NotASalePost) /\
  (contains t sale_marker = true -> startswith t (of_ascii "Re:") = true ->
     failure_of (ptt_record pd dom u) = Some F_NotOriginalPost) /\
  (forall d rest' dt, rest = d :: rest' -> pd d = Some dt -> split_ws a <> [] ->
     contains t sale_marker = true -> startswith t (of_ascii "Re:") = false ->
     (forall a' m b, join [ch_space] texts = a' ++ m ++ b -> ~ hundred_rounded m) ->
     failure_of (ptt_record pd dom u) = Some F_PriceNotFound).
Proof.
  intros Hc Hm. unfold ptt_record, rbind, nth_or_index_error. rewrite Hc, Hm.
  cbn [nth_error]. unfold format_name. split; [|split].
  - intros Hs. rewrite Hs. reflexivity.
  - intros Hs Hr. rewrite Hs, Hr. reflexivity.
  - intros d rest' dt -> Hd Ha Hs Hr Hnone. rewrite Hs, Hr. simpl.
    destruct (split_ws a) as [|au aus]; [congruence|]. simpl. rewrite Hd.
    pose proof (search_price_first_match (join [ch_space] texts)) as Hf.
    destruct (search_price (join [ch_space] texts)) as [[i m]|].
    + destruct Hf as (a' & b & Hab & _ & Hh & _). exfalso. exact (Hnone a' m b Hab Hh).
    + reflexivity.
Qed.

Lemma ptt_record_failure_order_witness :
  main_content post_reply = Some [of_ascii "no price here"] /\
  meta_values post_reply = of_ascii "seller" :: title_reply :: [of_ascii "Sat Jan  2 10:00:00 2016"] /\
  contains title_reply sale_marker = false /\
  failure_of (ptt_record (fun _ => Some 0) post_reply (of_ascii "u")) = Some F_NotASalePost.
Proof.
  split; [reflexivity|]. split; [reflexivity|]. split; [vm_compute; reflexivity|].
  destruct (ptt_record_failure_order (fun _ => Some 0) post_reply (of_ascii "u")
              [of_ascii "no price here"] (of_ascii "seller") title_reply
              [of_ascii "Sat Jan  2 10:00:00 2016"] eq_refl eq_refl) as [H _].
  apply H. vm_compute; reflexivity.
Defined.

(** C5 counterexample: the reply title ["Re: [WTB] Nikon F3"] has no sale
    marker, and extraction fails with NotASalePost, not NotOriginalPost. *)
Lemma reply_without_marker_not_a_sale :
  startswith title_reply (of_ascii "Re:") = true /\
  failure_of (ptt_record (fun _ => Some 0) post_reply (of_ascii "u")) = Some F_NotASalePost /\
  failure_of (ptt_record (fun _ => Some 0) post_reply (of_ascii "u")) <> Some F_NotOriginalPost.
Proof. split; [|split]; vm_compute; [reflexivity|reflexivity|discriminate]. Qed.

(** The price may be read from inside a longer number: in ["a 12005 b"]
    the match is ["1200"]. *)
Lemma price_inside_longer_number :
  search_price (of_ascii "a 12005 b") = Some (2%nat, of_ascii "1200").
Proof. vm_compute; reflexivity. Qed.

(** ** The crawler's actions *)

Create HintDb preserve.

Section Preservation.

Variable R : state -> state -> Prop.
Hypothesis R_refl : forall s, R s s.
Hypothesis R_trans : forall s1 s2 s3, R s1 s2 -> R s2 s3 -> R s1 s3.
Hypothesis R_emit : forall ev, (forall u, ev <> WriteCache u) -> preserves R (emit ev).

Lemma preserves_ret {A} (a : A) : preserves R (ret a).
Proof. intros s; apply R_refl. Qed.

Lemma preserves_raise {A} (x : exn) : preserves R (@raise A x).
Proof. intros s; apply R_refl. Qed.

Lemma preserves_lift {A} (r : result A) : preserves R (lift r).
Proof. intros s; apply R_refl. Qed.

Lemma preserves_bind {A B} (m : M A) (k : A -> M B) :
  preserves R m -> (forall a, preserves R (k a)) -> preserves R (bind m k).
Proof.
  intros Hm Hk s. unfold bind. specialize (Hm s).
  destruct (m s) as [[a|x] s'] eqn:E; simpl in *; auto.
  eapply R_trans; [exact Hm|]. apply Hk.
Qed.

Lemma preserves_catch {A} (m : M A) (h : exn -> M A) :
  preserves R m -> (forall x, preserves R (h x)) -> preserves R (catch m h).
Proof.
  intros Hm Hh s. unfold catch. specialize (Hm s).
  destruct (m s) as [[a|x] s'] eqn:E; simpl in *; auto.
  eapply R_trans; [exact Hm|]. apply Hh.
Qed.

Local Hint Resolve preserves_ret preserves_raise preserves_lift preserves_bind
  preserves_catch : preserve.

Ltac emit_ok := apply R_emit; intros ?; discriminate.

Lemma preserves_get_dom {D} (fetcher : pystr -> option D) (u : pystr) :
  preserves R (get_dom fetcher u).
Proof.
  unfold get_dom. apply preserves_bind; [emit_ok|intros _].
  apply preserves_bind; [emit_ok|intros _].
  destruct (fetcher u); auto with preserve.
Qed.

Lemma preserves_collect_rows (rs : list (option pystr)) : preserves R (collect_rows rs).
Proof.
  induction rs as [|[href|] rs IH]; simpl; auto with preserve.
  - apply preserves_bind; [emit_ok|intros _]. auto with preserve.
  - apply preserves_bind; [emit_ok|intros _]. exact IH.
Qed.

Lemma preserves_fetch_page_urls (e : env) (u : pystr) : preserves R (fetch_page_urls e u).
Proof.
  unfold fetch_page_urls. apply preserves_bind; [apply preserves_get_dom|intros dom].
  apply preserves_bind; [apply preserves_collect_rows|intros hrefs].
  destruct (nth_error (paging_links dom) 1); auto with preserve.
Qed.

Lemma preserves_fetch_post (e : env) (u : pystr) : preserves R (fetch_post e u).
Proof.
  unfold fetch_post. apply preserves_bind; [apply preserves_get_dom|auto with preserve].
Qed.

Lemma preserves_fetch_page_records (e : env) (hrefs : list pystr) (acc : list record) :
  preserves R (fetch_page_records e hrefs acc).
Proof.
  revert acc; induction hrefs as [|h hrefs IH]; intros acc; simpl; auto with preserve.
  apply preserves_bind; [|intros r; apply IH].
  apply preserves_catch.
  - apply preserves_bind; [apply preserves_fetch_post|auto with preserve].
  - intros x. apply preserves_bind; [emit_ok|auto with preserve].
Qed.

Lemma preserves_save_page_records (e : env) (recs : list record) (tag : pystr) :
  preserves R (save_page_records e recs tag).
Proof.
  unfold save_page_records.
  destruct (file_write e _); [|auto with preserve|].
  - apply preserves_bind; [emit_ok|intros _; emit_ok].
  - apply preserves_bind; [emit_ok|auto with preserve].
Qed.

Lemma preserves_parge_page_tag (u : pystr) : preserves R (parge_page_tag u).
Proof. unfold parge_page_tag. destruct (search_tag u); auto with preserve. Qed.

End Preservation.

Lemma keeps_cache_refl (s : state) : keeps_cache s s.
Proof. reflexivity. Qed.

Lemma keeps_cache_trans (s1 s2 s3 : state) :
  keeps_cache s1 s2 -> keeps_cache s2 s3 -> keeps_cache s1 s3.
Proof. unfold keeps_cache; congruence. Qed.

Lemma keeps_cache_emit (ev : event) : (forall u, ev <> WriteCache u) -> preserves keeps_cache (emit ev).
Proof. intros _ s; reflexivity. Qed.

Lemma io_extends_refl (s : state) : io_extends s s.
Proof. exists []. rewrite app_nil_r. reflexivity. Qed.

Lemma io_extends_trans (s1 s2 s3 : state) :
  io_extends s1 s2 -> io_extends s2 s3 -> io_extends s1 s3.
Proof. intros [l1 H1] [l2 H2]. exists (l1 ++ l2). rewrite H2, H1, app_assoc. reflexivity. Qed.

Lemma io_extends_emit (ev : event) : (forall u, ev <> WriteCache u) -> preserves io_extends (emit ev).
Proof. intros _ s. exists [ev]. reflexivity. Qed.

Lemma io_extends_write_next_page (e : env) (u : pystr) : preserves io_extends (write_next_page e u).
Proof.
  intros s. unfold write_next_page. destruct (file_write e CACHE_FILE).
  - exists [WriteCache u]. reflexivity.
  - apply io_extends_refl.
  - exists [WriteCache (firstn k u)]. reflexivity.
Qed.

Lemma io_extends_fetch_one_page (e : env) (u : pystr) : preserves io_extends (fetch_one_page e u).
Proof.
  pose proof io_extends_refl as Rr. pose proof io_extends_trans as Rt.
  pose proof io_extends_emit as Re.
  unfold fetch_one_page.
  apply (preserves_bind io_extends Rt).
  { apply (preserves_fetch_page_urls io_extends); auto. }
  intros [next hrefs].
  apply (preserves_bind io_extends Rt).
  { apply (preserves_fetch_page_records io_extends); auto. }
  intros recs. apply (preserves_bind io_extends Rt).
  { apply (preserves_parge_page_tag io_extends); auto. }
  intros tag. apply (preserves_bind io_extends Rt).
  { apply (preserves_save_page_records io_extends); auto. }
  intros _. apply (preserves_bind io_extends Rt).
  { apply io_extends_write_next_page. }
  intros _. apply (preserves_ret io_extends Rr).
Qed.

Lemma io_extends_scan_pages (e : env) (n : nat) (u : pystr) : preserves io_extends (scan_pages e n u).
Proof.
  revert u; induction n as [|n IH]; intros u; simpl.
  - apply preserves_ret, io_extends_refl.
  - apply (preserves_bind io_extends io_extends_trans);
      [apply io_extends_fetch_one_page|intros v; apply IH].
Qed.

Lemma keeps_cache_fetch_page_urls (e : env) (u : pystr) (s : state) :
  keeps_cache s (snd (fetch_page_urls e u s)).
Proof. apply (preserves_fetch_page_urls keeps_cache keeps_cache_refl keeps_cache_trans keeps_cache_emit). Qed.

Lemma keeps_cache_fetch_page_records (e : env) (hrefs : list pystr) (acc : list record) (s : state) :
  keeps_cache s (snd (fetch_page_records e hrefs acc s)).
Proof. apply (preserves_fetch_page_records keeps_cache keeps_cache_refl keeps_cache_trans keeps_cache_emit). Qed.

Lemma io_extends_fetch_page_urls (e : env) (u : pystr) (s : state) :
  io_extends s (snd (fetch_page_urls e u s)).
Proof. apply (preserves_fetch_page_urls io_extends io_extends_refl io_extends_trans io_extends_emit). Qed.

Lemma io_extends_fetch_page_records (e : env) (hrefs : list pystr) (acc : list record) (s : state) :
  io_extends s (snd (fetch_page_records e hrefs acc s)).
Proof. apply (preserves_fetch_page_records io_extends io_extends_refl io_extends_trans io_extends_emit). Qed.

Lemma scan_pages_abort (e : env) (n : nat) (p : pystr) (s s' : state) (x : exn) :
  fetch_one_page e p s = (Err x, s') -> scan_pages e (S n) p s = (Err x, s').
Proof. intros H. cbn [scan_pages]. unfold bind at 1. rewrite H. reflexivity. Qed.


(** ** [__fetch_page_records] *)

Lemma fetch_page_records_eq (e : env) (hrefs : list pystr) (acc : list record) (s : state) :
  fetch_page_records e hrefs acc s =
  (Ok (acc ++ successes e hrefs),
   mk_state (cache_file s) (io s ++ flat_map (post_events e) hrefs)).
Proof.
  revert acc s; induction hrefs as [|h hrefs IH]; intros acc s.
  - simpl. rewrite !app_nil_r. destruct s; reflexivity.
  - cbn [fetch_page_records]. unfold bind at 1, catch.
    unfold fetch_post, get_dom, bind, emit, ret, raise, lift.
    cbn [fst snd cache_file io]. unfold successes, post_events, post_outcome. cbn [flat_map].
    destruct (get_post e (URL_PREFIX ++ h)) as [dom|];
      [destruct (ptt_record (parse_date e) dom (URL_PREFIX ++ h)) as [r|x]|];
      rewrite IH; unfold successes, post_events, post_outcome;
      cbn [cache_file io]; rewrite <- !app_assoc; reflexivity.
Qed.

(** C8: collecting a page's records never raises, whatever each post's
    extraction raises: each failing post is skipped after printing its skip
    message, and the result is the records of all the posts whose
    extraction succeeds, in order. *)
Theorem fetch_page_records_skips_failures (e : env) (hrefs : list pystr) (s : state) :
  fetch_page_records e hrefs [] s =
  (Ok (flat_map (fun h => match post_outcome e (URL_PREFIX ++ h) with
                          | Ok r => [r] | Err _ => [] end) hrefs),
   mk_state (cache_file s)
     (io s ++ flat_map (fun h =>
        [Print (MsgFetching (URL_PREFIX ++ h)); Get (URL_PREFIX ++ h)] ++
        match post_outcome e (URL_PREFIX ++ h) with
        | Ok _ => [] | Err x => [Print (skip_msg x)] end) hrefs)).
Proof. exact (fetch_page_records_eq e hrefs [] s). Qed.

Lemma post_outcome_url (e : env) (u : pystr) (r : record) :
  post_outcome e u = Ok r -> url r = u.
Proof.
  unfold post_outcome. destruct (get_post e u) as [dom|]; [|discriminate].
  intros H. destruct (ptt_record_ok_inv _ _ _ _ H) as (_ & _ & _ & _ & _ & _ & _ & Hu).
  exact Hu.
Qed.

Lemma app_inv_prefix (p a b : pystr) : p ++ a = p ++ b -> a = b.
Proof. induction p as [|x p IH]; simpl; auto. intros H; injection H; auto. Qed.

(** C1 counterexample: a listing page whose two rows link the same post
    is saved as a batch of two records with the same url. *)
Lemma duplicate_post_saved_twice :
  In (WriteCsv (saved_csv (of_ascii "978"))
        [mk_record (sale_marker ++ of_ascii " EOS 5D Mark III") 4500 (of_ascii "ptt")
                   (of_ascii "seller") 1451700000 (URL_PREFIX ++ post_href);
         mk_record (sale_marker ++ of_ascii " EOS 5D Mark III") 4500 (of_ascii "ptt")
                   (of_ascii "seller") 1451700000 (URL_PREFIX ++ post_href)])
     (io (snd (fetch_one_page env_dup page_978 (mk_state None [])))).
Proof.
  vm_compute. repeat (first [left; reflexivity | right]).
Qed.

(** ** Where a run starts *)

Lemma starts_with_bind {A B} (l : list event) (m : M A) (k : A -> M B) :
  starts_with_events l m -> (forall a, preserves io_extends (k a)) ->
  starts_with_events l (bind m k).
Proof.
  intros Hm Hk s. unfold bind. specialize (Hm s).
  destruct (m s) as [[a|x] s1] eqn:E; simpl in Hm |- *; destruct Hm as [l1 H1].
  - destruct (Hk a s1) as [l2 H2]. exists (l1 ++ l2). rewrite H2, H1, <- !app_assoc. reflexivity.
  - exists l1. exact H1.
Qed.

Lemma starts_with_emit {B} (ev : event) (l : list event) (k : unit -> M B) :
  starts_with_events l (k tt) -> starts_with_events (ev :: l) (bind (emit ev) k).
Proof.
  intros Hk s. unfold bind, emit at 1. destruct (Hk (mk_state (cache_file s) (io s ++ [ev])))
    as [l1 H1].
  exists l1. rewrite H1. simpl. rewrite <- app_assoc. reflexivity.
Qed.

Lemma starts_with_nil {A} (m : M A) : preserves io_extends m -> starts_with_events [] m.
Proof. intros H s. destruct (H s) as [l Hl]. exists l. exact Hl. Qed.

Lemma get_dom_starts {D} (fetcher : pystr -> option D) (u : pystr) :
  starts_with_events [Print (MsgFetching u); Get u] (get_dom fetcher u).
Proof.
  unfold get_dom. apply starts_with_emit, starts_with_emit, starts_with_nil.
  destruct (fetcher u); [apply preserves_ret|apply preserves_raise]; apply io_extends_refl.
Qed.

Lemma fetch_one_page_starts (e : env) (u : pystr) :
  starts_with_events [Print (MsgFetching u); Get u] (fetch_one_page e u).
Proof.
  pose proof io_extends_refl as Rr. pose proof io_extends_trans as Rt.
  pose proof io_extends_emit as Re.
  unfold fetch_one_page. apply starts_with_bind.
  - unfold fetch_page_urls. apply starts_with_bind; [apply get_dom_starts|intros dom].
    apply (preserves_bind io_extends Rt); [apply (preserves_collect_rows io_extends); auto|].
    intros hrefs. destruct (nth_error (paging_links dom) 1);
      [apply (preserves_ret io_extends Rr)|apply (preserves_raise io_extends Rr)].
  - intros [next hrefs].
    apply (preserves_bind io_extends Rt); [apply (preserves_fetch_page_records io_extends); auto|].
    intros recs. apply (preserves_bind io_extends Rt).
    { apply (preserves_parge_page_tag io_extends); auto. }
    intros tag. apply (preserves_bind io_extends Rt).
    { apply (preserves_save_page_records io_extends); auto. }
    intros _. apply (preserves_bind io_extends Rt).
    { apply io_extends_write_next_page. }
    intros _. apply (preserves_ret io_extends Rr).
Qed.

Lemma run_starts (e : env) (board_name : pystr) (s : state) :
  exists rest, io (snd (run e board_name s)) =
    io s ++ Print (MsgFetching (start_page board_name (cache_init (cache_file s))))
         :: Get (start_page board_name (cache_init (cache_file s))) :: rest.
Proof.
  unfold run, fetch, PAGES. cbn [scan_pages].
  destruct (starts_with_bind _ _ _ (fetch_one_page_starts e (start_page board_name (cache_init (cache_file s))))
              (fun v => io_extends_scan_pages e 99 v) s) as [l H].
  exists l. exact H.
Qed.

(** C6: a run's first request is for the checkpoint's page when the
    [cache] file holds one, and for the board's listing root when there is
    no [cache] file. *)
Theorem run_starts_at_checkpoint (e : env) (board_name : pystr) (s : state) :
  (forall v, read_next_page (cache_init (cache_file s)) = Some v ->
     exists rest, io (snd (run e board_name s)) =
       io s ++ Print (MsgFetching v) :: Get v :: rest) /\
  (cache_file s = None ->
     exists rest, io (snd (run e board_name s)) =
       io s ++ Print (MsgFetching (root_page board_name)) :: Get (root_page board_name) :: rest).
Proof.
  destruct (run_starts e board_name s) as [rest H]. split.
  - intros v Hv. exists rest. rewrite H. unfold start_page. unfold read_next_page in Hv.
    rewrite Hv. reflexivity.
  - intros Hn. exists rest. rewrite H. unfold start_page. rewrite Hn. reflexivity.
Qed.

Lemma run_starts_at_checkpoint_witness :
  read_next_page (cache_init (cache_file (mk_state (Some page_p5) []))) = Some page_p5 /\
  exists rest, io (snd (run env_dup (of_ascii "photo-buy") (mk_state (Some page_p5) []))) =
    [] ++ Print (MsgFetching page_p5) :: Get page_p5 :: rest.
Proof.
  assert (H : read_next_page (cache_init (cache_file (mk_state (Some page_p5) [])))
              = Some page_p5) by (vm_compute; reflexivity).
  split; [exact H|].
  destruct (run_starts_at_checkpoint env_dup (of_ascii "photo-buy") (mk_state (Some page_p5) []))
    as [H1 _].
  exact (H1 page_p5 H).
Defined.

Lemma lstrip_blank (t : pystr) : forallb is_space t = true -> lstrip t = [].
Proof.
  induction t as [|c t IH]; simpl; [reflexivity|].
  intros H; apply andb_true_iff in H as [Hc Ht]. rewrite Hc. exact (IH Ht).
Qed.

(** C10: presence of a checkpoint is the presence of the [cache] file. A
    file that is empty or holds only whitespace gives the checkpoint [""],
    which is reported as present, and the run starts by requesting the
    url [""] instead of the listing root. *)
Theorem blank_checkpoint_starts_at_empty_url (e : env) (board_name : pystr) (s : state)
  (text : pystr) :
  cache_file s = Some text -> forallb is_space text = true ->
  is_cached (cache_init (cache_file s)) = true /\
  read_next_page (cache_init (cache_file s)) = Some [] /\
  (exists rest, io (snd (run e board_name s)) = io s ++ Print (MsgFetching []) :: Get [] :: rest) /\
  root_page board_name <> [].
Proof.
  intros Hf Hb.
  assert (Hc : cache_init (cache_file s) = Some []).
  { rewrite Hf. simpl. unfold strip, rstrip. rewrite (lstrip_blank _ Hb). reflexivity. }
  rewrite Hc. split; [reflexivity|]. split; [reflexivity|]. split.
  - destruct (run_starts e board_name s) as [rest H]. exists rest. rewrite H, Hc. reflexivity.
  - unfold root_page, URL_PREFIX. simpl. discriminate.
Qed.

Lemma blank_checkpoint_starts_at_empty_url_witness :
  cache_file (mk_state (Some blank_text) []) = Some blank_text /\ forallb is_space blank_text = true /\
  read_next_page (cache_init (cache_file (mk_state (Some blank_text) []))) = Some [].
Proof.
  split; [reflexivity|]. split; [reflexivity|].
  destruct (blank_checkpoint_starts_at_empty_url env_dup (of_ascii "photo-buy")
              (mk_state (Some blank_text) []) blank_text eq_refl eq_refl) as (_ & H & _).
  exact H.
Defined.

(** ** Writing the [cache] file *)

Lemma apply_appends (l t : pystr) :
  fold_left apply_op (map Append l) (Some t) = Some (t ++ l).
Proof.
  revert t; induction l as [|c l IH]; intros t; simpl.
  - rewrite app_nil_r. reflexivity.
  - rewrite IH, <- app_assoc. reflexivity.
Qed.

(** C9 (amended): [write_next_page] is a plain overwrite, not an atomic
    one. A crash during it, before its last disk operation, leaves the
    [cache] file either as it was or holding a strict prefix of the new
    url, the empty one included; only the completed write leaves the
    whole new url. *)
Theorem checkpoint_write_crash_states (old : option pystr) (new : pystr) (k : nat) :
  ((k < length (write_next_page_ops new))%nat ->
   crash_after old (write_next_page_ops new) k = old \/
   exists p q, new = p ++ q /\ q <> [] /\ crash_after old (write_next_page_ops new) k = Some p) /\
  crash_after old (write_next_page_ops new) (length (write_next_page_ops new)) = Some new.
Proof.
  unfold crash_after, write_next_page_ops. split.
  - intros Hk. destruct k as [|k]; [left; reflexivity|right].
    cbn [length] in Hk. rewrite length_map in Hk.
    exists (firstn k new), (skipn k new). split; [symmetry; apply firstn_skipn|]. split.
    + intros Hq. apply (f_equal (@length Z)) in Hq. rewrite length_skipn in Hq.
      cbn in Hq. lia.
    + cbn [firstn fold_left apply_op]. rewrite firstn_map, apply_appends. reflexivity.
  - rewrite firstn_all. cbn [fold_left apply_op]. rewrite apply_appends. reflexivity.
Qed.

(** C9 counterexample: a crash right after [open(CACHE_FILE, "w")] turns
    the checkpoint [index4] being replaced by [index5] into an empty file,
    which the next run reads as the checkpoint [""], neither value. *)
Lemma checkpoint_truncated_by_crash :
  crash_after (Some page_p4) (write_next_page_ops page_p5) 1 = Some [] /\
  cache_init (crash_after (Some page_p4) (write_next_page_ops page_p5) 1) = Some [] /\
  cache_init (crash_after (Some page_p4) (write_next_page_ops page_p5) 1)
    <> cache_init (Some page_p4) /\
  cache_init (crash_after (Some page_p4) (write_next_page_ops page_p5) 1)
    <> cache_init (Some page_p5).
Proof. vm_compute. split; [reflexivity|]. split; [reflexivity|]. split; discriminate. Qed.

(** ** One page of the crawl, event by event *)

Lemma collect_rows_eq (rs : list (option pystr)) (s : state) :
  collect_rows rs s = (Ok (link_hrefs rs), mk_state (cache_file s) (io s ++ map row_msg rs)).
Proof.
  revert s; induction rs as [|[h|] rs IH]; intros s.
  - simpl. rewrite app_nil_r. destruct s; reflexivity.
  - cbn [collect_rows]. unfold bind, emit, ret. rewrite IH. cbn [cache_file io].
    rewrite <- app_assoc. reflexivity.
  - cbn [collect_rows]. unfold bind, emit. rewrite IH. cbn [cache_file io].
    rewrite <- app_assoc. reflexivity.
Qed.

Lemma fetch_page_urls_eq (e : env) (u : pystr) (s : state) :
  fetch_page_urls e u s =
  match get_listing e u with
  | None => (Err RequestException,
             mk_state (cache_file s) (io s ++ [Print (MsgFetching u); Get u]))
  | Some d =>
      (match nth_error (paging_links d) 1 with
       | Some next_page_url => Ok (next_page_url, link_hrefs (rows d))
       | None => Err IndexError
       end,
       mk_state (cache_file s) (io s ++ [Print (MsgFetching u); Get u] ++ map row_msg (rows d)))
  end.
Proof.
  unfold fetch_page_urls, get_dom, bind, emit, ret, raise. cbn [cache_file io].
  destruct (get_listing e u) as [d|].
  - rewrite collect_rows_eq. cbn [cache_file io].
    rewrite <- !app_assoc. destruct (nth_error (paging_links d) 1); reflexivity.
  - rewrite <- app_assoc. reflexivity.
Qed.

Lemma backtrack_tag_range (s : pystr) (k k' : nat) :
  backtrack_tag s k = Some k' -> (1 <= k' <= k)%nat.
Proof.
  induction k as [|k IH]; simpl; [discriminate|].
  destruct (_ && _); [intros H; injection H as <-; lia|].
  intros H. specialize (IH H). lia.
Qed.

(** The group [(\d+)] is a nonempty run of digits. *)
Lemma search_tag_digits (s g : pystr) :
  search_tag s = Some g -> g <> [] /\ forallb is_digit g = true.
Proof.
  induction s as [|c s IH]; intros H.
  - discriminate.
  - cbn [search_tag] in H. destruct (match_tag_at (c :: s)) as [g'|] eqn:Hm.
    + injection H as <-. unfold match_tag_at in Hm.
      destruct (backtrack_tag (c :: s) (digit_run (c :: s))) as [k|] eqn:Hb; [|discriminate].
      injection Hm as <-. apply backtrack_tag_range in Hb.
      pose proof (digit_run_le_length (c :: s)) as Hl.
      split.
      * intros Hn. apply (f_equal (@length Z)) in Hn. rewrite length_firstn in Hn.
        simpl in Hn, Hl. lia.
      * apply digit_run_prefix. lia.
    + exact (IH H).
Qed.

Lemma saved_csv_match (tag : pystr) :
  tag <> [] -> match tag with [] => SAVED_CSV | _ => saved_csv tag end = saved_csv tag.
Proof. destruct tag; [contradiction|reflexivity]. Qed.

Lemma fetch_one_page_eq (e : env) (u : pystr) (s : state) :
  fetch_one_page e u s =
  match get_listing e u with
  | None => (Err RequestException,
             mk_state (cache_file s) (io s ++ [Print (MsgFetching u); Get u]))
  | Some d =>
      match nth_error (paging_links d) 1 with
      | None => (Err IndexError,
                 mk_state (cache_file s)
                   (io s ++ [Print (MsgFetching u); Get u] ++ map row_msg (rows d)))
      | Some next_page_url =>
          let pre := io s ++ [Print (MsgFetching u); Get u] ++ map row_msg (rows d)
                          ++ flat_map (post_events e) (link_hrefs (rows d)) in
          let recs := successes e (link_hrefs (rows d)) in
          let next := URL_PREFIX ++ next_page_url in
          match search_tag u with
          | None => (Err AttributeError, mk_state (cache_file s) pre)
          | Some tag =>
              match file_write e (saved_csv tag) with
              | OpenFails => (Err OSError, mk_state (cache_file s) pre)
              | WriteFails _ =>
                  (Err OSError, mk_state (cache_file s)
                                  (pre ++ [WriteCsvFailed (saved_csv tag) recs]))
              | Written =>
                  let saved := pre ++ [WriteCsv (saved_csv tag) recs;
                                       Print (MsgSaved (saved_csv tag))] in
                  match file_write e CACHE_FILE with
                  | Written => (Ok next, mk_state (Some next) (saved ++ [WriteCache next]))
                  | OpenFails => (Err OSError, mk_state (cache_file s) saved)
                  | WriteFails k =>
                      (Err OSError, mk_state (Some (firstn k next))
                                      (saved ++ [WriteCache (firstn k next)]))
                  end
              end
          end
      end
  end.
Proof.
  unfold fetch_one_page. unfold bind at 1. rewrite fetch_page_urls_eq.
  destruct (get_listing e u) as [d|]; [|reflexivity].
  destruct (nth_error (paging_links d) 1) as [nx|]; [|reflexivity].
  cbv beta iota zeta. unfold bind at 1. rewrite fetch_page_records_eq.
  cbn [cache_file io app]. unfold parge_page_tag.
  destruct (search_tag u) as [tag|] eqn:Ht.
  - destruct (search_tag_digits _ _ Ht) as [Hne _].
    unfold save_page_records, write_next_page. unfold bind at 1, ret at 1.
    cbv zeta. rewrite (saved_csv_match _ Hne).
    unfold bind, ret, emit, raise. cbn [cache_file io].
    destruct (file_write e (saved_csv tag)); cbn [cache_file io];
      [destruct (file_write e CACHE_FILE)| |]; cbn [cache_file io];
      rewrite <- ?app_assoc; cbn [app]; rewrite <- ?app_assoc; reflexivity.
  - unfold bind, raise. cbn [cache_file io]. rewrite <- !app_assoc. reflexivity.
Qed.

Lemma row_msgs_no_output (rs : list (option pystr)) :
  forallb (fun ev => negb (is_output ev)) (map row_msg rs) = true.
Proof. induction rs as [|[h|] rs IH]; simpl; auto. Qed.

Lemma post_events_no_output (e : env) (hrefs : list pystr) :
  forallb (fun ev => negb (is_output ev)) (flat_map (post_events e) hrefs) = true.
Proof.
  induction hrefs as [|h hrefs IH]; cbn [flat_map]; [reflexivity|].
  rewrite forallb_app, IH. unfold post_events.
  destruct (post_outcome e (URL_PREFIX ++ h)); reflexivity.
Qed.

(** Before its csv file, a page only prints and fetches; when it
    completes, it has written the csv file, named by the page's tag, and
    then the checkpoint. When it raises, either the checkpoint is
    untouched (and the csv file may have been opened or written), or the
    csv file was written and writing the checkpoint failed after the
    truncating [open], leaving a prefix of the next page's url. *)
Lemma fetch_one_page_shape (e : env) (u : pystr) (s : state) :
  exists l, forallb (fun ev => negb (is_output ev)) l = true /\
  match fetch_one_page e u s with
  | (Ok next, s') =>
      exists tag recs, search_tag u = Some tag /\
        io s' = io s ++ l ++ [WriteCsv (saved_csv tag) recs; Print (MsgSaved (saved_csv tag));
                              WriteCache next] /\
        cache_file s' = Some next
  | (Err x, s') =>
      (cache_file s' = cache_file s /\
       (io s' = io s ++ l \/
        exists tag recs, search_tag u = Some tag /\
          (io s' = io s ++ l ++ [WriteCsvFailed (saved_csv tag) recs] \/
           io s' = io s ++ l ++ [WriteCsv (saved_csv tag) recs; Print (MsgSaved (saved_csv tag))]))) \/
      (exists tag recs d nx k, get_listing e u = Some d /\ nth_error (paging_links d) 1 = Some nx /\
         search_tag u = Some tag /\ file_write e CACHE_FILE = WriteFails k /\ x = OSError /\
         io s' = io s ++ l ++ [WriteCsv (saved_csv tag) recs; Print (MsgSaved (saved_csv tag));
                               WriteCache (firstn k (URL_PREFIX ++ nx))] /\
         cache_file s' = Some (firstn k (URL_PREFIX ++ nx)))
  end.
Proof.
  rewrite fetch_one_page_eq.
  destruct (get_listing e u) as [d|] eqn:Hd.
  2:{ exists [Print (MsgFetching u); Get u]. split; [reflexivity|]. left.
      split; [reflexivity|]. left; reflexivity. }
  destruct (nth_error (paging_links d) 1) as [nx|] eqn:Hnx.
  2:{ exists ([Print (MsgFetching u); Get u] ++ map row_msg (rows d)).
      split; [rewrite forallb_app, row_msgs_no_output; reflexivity|].
      left. split; [reflexivity|]. left; reflexivity. }
  exists ([Print (MsgFetching u); Get u] ++ map row_msg (rows d)
          ++ flat_map (post_events e) (link_hrefs (rows d))).
  split; [rewrite !forallb_app, row_msgs_no_output, post_events_no_output; reflexivity|].
  cbv zeta.
  destruct (search_tag u) as [tag|] eqn:Ht.
  2:{ left. split; [reflexivity|]. left. cbn [io]. rewrite <- ?app_assoc. reflexivity. }
  destruct (file_write e (saved_csv tag)) as [| |k0];
    [destruct (file_write e CACHE_FILE) as [| |k] eqn:Hc| |].
  - exists tag, (successes e (link_hrefs (rows d))). split; [reflexivity|].
    split; [|reflexivity]. cbn [io]. rewrite <- ?app_assoc. reflexivity.
  - left. split; [reflexivity|]. right. exists tag, (successes e (link_hrefs (rows d))).
    split; [reflexivity|]. right. cbn [io]. rewrite <- ?app_assoc. reflexivity.
  - right. exists tag, (successes e (link_hrefs (rows d))), d, nx, k.
    do 5 (split; [first [reflexivity|assumption]|]). split; [|reflexivity]. cbn [io].
    rewrite <- ?app_assoc. reflexivity.
  - left. split; [reflexivity|]. left. cbn [io]. rewrite <- ?app_assoc. reflexivity.
  - left. split; [reflexivity|]. right. exists tag, (successes e (link_hrefs (rows d))).
    split; [reflexivity|]. left. cbn [io]. rewrite <- ?app_assoc. reflexivity.
Qed.

Lemma fetch_one_page_ok_cache (e : env) (u next : pystr) (s s' : state) :
  fetch_one_page e u s = (Ok next, s') -> cache_file s' = Some next.
Proof.
  intros H. destruct (fetch_one_page_shape e u s) as (l & _ & Hs). rewrite H in Hs.
  destruct Hs as (tag & recs & _ & _ & Hc). exact Hc.
Qed.

Lemma count_events_app (p : event -> bool) (l1 l2 : list event) :
  count_events p (l1 ++ l2) = (count_events p l1 + count_events p l2)%nat.
Proof. unfold count_events. rewrite filter_app, length_app. reflexivity. Qed.

Lemma count_no_output (l : list event) :
  forallb (fun ev => negb (is_output ev)) l = true ->
  count_events is_csv l = 0%nat /\ count_events is_cache_write l = 0%nat.
Proof.
  unfold count_events. induction l as [|ev l IH]; simpl; [auto|].
  intros H; apply andb_true_iff in H as [Hev Hl].
  destruct ev; simpl in Hev |- *; try discriminate; apply IH, Hl.
Qed.

Lemma no_output_no_csv (l : list event) (fn : pystr) (rs : list record) :
  forallb (fun ev => negb (is_output ev)) l = true ->
  ~ (In (WriteCsv fn rs) l \/ In (WriteCsvFailed fn rs) l).
Proof.
  intros H [Hin|Hin]; rewrite forallb_forall in H; specialize (H _ Hin); discriminate H.
Qed.

Lemma in_csv_app (fn : pystr) (rs : list record) (l1 l2 : list event) :
  In (WriteCsv fn rs) (l1 ++ l2) \/ In (WriteCsvFailed fn rs) (l1 ++ l2) ->
  (In (WriteCsv fn rs) l1 \/ In (WriteCsvFailed fn rs) l1) \/
  (In (WriteCsv fn rs) l2 \/ In (WriteCsvFailed fn rs) l2).
Proof. rewrite !in_app_iff. tauto. Qed.

(** Over [n] pages: the csv files are named by the pages' tags, at most
    one csv file and one checkpoint is written per page, and exactly [n]
    of each when the [n] pages complete. *)
Lemma scan_pages_shape (e : env) (n : nat) (u : pystr) (s : state) :
  exists l, io (snd (scan_pages e n u s)) = io s ++ l /\
    (count_events is_csv l <= n)%nat /\ (count_events is_cache_write l <= n)%nat /\
    (fst (scan_pages e n u s) = Ok tt ->
       count_events is_csv l = n /\ count_events is_cache_write l = n) /\
    (forall fn rs, In (WriteCsv fn rs) l \/ In (WriteCsvFailed fn rs) l ->
       exists tag, fn = saved_csv tag /\ tag <> [] /\ forallb is_digit tag = true).
Proof.
  revert u s; induction n as [|n IH]; intros u s.
  - exists []. cbn. rewrite app_nil_r. split; [reflexivity|]. split; [lia|]. split; [lia|].
    split; [auto|]. intros fn rs [[]|[]].
  - cbn [scan_pages]. unfold bind.
    destruct (fetch_one_page_shape e u s) as (l0 & Hno & Hsh).
    destruct (count_no_output l0 Hno) as [Hc0 Hw0].
    destruct (fetch_one_page e u s) as [[next|x] s1] eqn:E.
    + destruct Hsh as (tag & recs & Ht & Hio & _).
      destruct (search_tag_digits _ _ Ht) as [Hne Hdig].
      destruct (IH next s1) as (l1 & Hio1 & Hc1 & Hw1 & Hok1 & Hn1).
      exists (l0 ++ [WriteCsv (saved_csv tag) recs; Print (MsgSaved (saved_csv tag));
                     WriteCache next] ++ l1).
      rewrite Hio1, Hio, <- !app_assoc. split; [reflexivity|].
      rewrite !count_events_app, Hc0, Hw0. cbn. split; [lia|]. split; [lia|].
      split; [intros Hok; destruct (Hok1 Hok); lia|].
      intros fn rs Hin. apply in_csv_app in Hin as [Hin|Hin].
      * exfalso; exact (no_output_no_csv _ _ _ Hno Hin).
      * cbn [In app] in Hin.
        destruct Hin as [[Hin|[Hin|[Hin|Hin]]]|[Hin|[Hin|[Hin|Hin]]]]; try discriminate.
        -- injection Hin as <- _. exists tag. auto.
        -- exact (Hn1 fn rs (or_introl Hin)).
        -- exact (Hn1 fn rs (or_intror Hin)).
    + cbn [fst snd].
      destruct Hsh as [[_ [Hio|(tag & recs & Ht & [Hio|Hio])]]
                      |(tag & recs & d & nx & k & _ & _ & Ht & _ & _ & Hio & _)].
      * exists l0. split; [exact Hio|]. rewrite Hc0, Hw0. split; [lia|]. split; [lia|].
        split; [discriminate|]. intros fn rs Hin.
        exfalso; exact (no_output_no_csv _ _ _ Hno Hin).
      * destruct (search_tag_digits _ _ Ht) as [Hne Hdig].
        exists (l0 ++ [WriteCsvFailed (saved_csv tag) recs]).
        split; [exact Hio|]. rewrite !count_events_app, Hc0, Hw0. cbn. split; [lia|].
        split; [lia|]. split; [discriminate|].
        intros fn rs Hin. apply in_csv_app in Hin as [Hin|Hin].
        -- exfalso; exact (no_output_no_csv _ _ _ Hno Hin).
        -- cbn [In] in Hin. destruct Hin as [[Hin|[]]|[Hin|[]]]; [discriminate|].
           injection Hin as <- _. exists tag. auto.
      * destruct (search_tag_digits _ _ Ht) as [Hne Hdig].
        exists (l0 ++ [WriteCsv (saved_csv tag) recs; Print (MsgSaved (saved_csv tag))]).
        split; [exact Hio|]. rewrite !count_events_app, Hc0, Hw0. cbn. split; [lia|].
        split; [lia|]. split; [discriminate|].
        intros fn rs Hin. apply in_csv_app in Hin as [Hin|Hin].
        -- exfalso; exact (no_output_no_csv _ _ _ Hno Hin).
        -- cbn [In] in Hin. destruct Hin as [[Hin|[Hin|[]]]|[Hin|[Hin|[]]]]; try discriminate.
           injection Hin as <- _. exists tag. auto.
      * destruct (search_tag_digits _ _ Ht) as [Hne Hdig].
        exists (l0 ++ [WriteCsv (saved_csv tag) recs; Print (MsgSaved (saved_csv tag));
                       WriteCache (firstn k (URL_PREFIX ++ nx))]).
        split; [exact Hio|]. rewrite !count_events_app, Hc0, Hw0. cbn. split; [lia|].
        split; [lia|]. split; [discriminate|].
        intros fn rs Hin. apply in_csv_app in Hin as [Hin|Hin].
        -- exfalso; exact (no_output_no_csv _ _ _ Hno Hin).
        -- cbn [In] in Hin.
           destruct Hin as [[Hin|[Hin|[Hin|[]]]]|[Hin|[Hin|[Hin|[]]]]]; try discriminate.
           injection Hin as <- _. exists tag. auto.
Qed.

(** C2: one page of the crawl. When it completes, it has fetched the
    listing page and the posts, written the batch of the successful
    extractions to the page's csv file, and only then written the next
    page's url to the [cache] file, as the page's last event. When it
    raises, the run stops there; the [cache] file is as it was before the
    page, unless the csv file was written in full and the checkpoint write
    itself failed after its truncating [open], leaving a prefix of the new
    url. In particular, when the csv file cannot be written the page
    raises without touching the [cache] file. *)
Theorem checkpoint_written_after_save (e : env) (page_url : pystr) (s : state) :
  (forall next s', fetch_one_page e page_url s = (Ok next, s') ->
     exists d nx tag, get_listing e page_url = Some d /\ nth_error (paging_links d) 1 = Some nx /\
       search_tag page_url = Some tag /\ next = URL_PREFIX ++ nx /\
       io s' = io s ++ [Print (MsgFetching page_url); Get page_url] ++ map row_msg (rows d) ++
               flat_map (post_events e) (link_hrefs (rows d)) ++
               [WriteCsv (saved_csv tag) (successes e (link_hrefs (rows d)));
                Print (MsgSaved (saved_csv tag)); WriteCache next] /\
       cache_file s' = Some next) /\
  (forall x s', fetch_one_page e page_url s = (Err x, s') ->
     (forall n, scan_pages e (S n) page_url s = (Err x, s')) /\
     (cache_file s' = cache_file s \/
      exists l fn recs j next, forallb (fun ev => negb (is_output ev)) l = true /\
        file_write e fn = Written /\ file_write e CACHE_FILE = WriteFails j /\ x = OSError /\
        io s' = io s ++ l ++ [WriteCsv fn recs; Print (MsgSaved fn); WriteCache (firstn j next)] /\
        cache_file s' = Some (firstn j next))) /\
  (forall tag, search_tag page_url = Some tag -> file_write e (saved_csv tag) <> Written ->
     (forall next, fst (fetch_one_page e page_url s) <> Ok next) /\
     cache_file (snd (fetch_one_page e page_url s)) = cache_file s /\
     exists l, io (snd (fetch_one_page e page_url s)) = io s ++ l /\
       count_events is_cache_write l = 0%nat).
Proof.
  pose proof (fetch_one_page_eq e page_url s) as Heq. cbv zeta in Heq.
  assert (Hpre : forall d, forallb (fun ev => negb (is_output ev))
            ([Print (MsgFetching page_url); Get page_url] ++ map row_msg (rows d) ++
             flat_map (post_events e) (link_hrefs (rows d))) = true).
  { intros d. rewrite !forallb_app, row_msgs_no_output, post_events_no_output. reflexivity. }
  split; [|split].
  - intros next s' H. rewrite Heq in H.
    destruct (get_listing e page_url) as [d|] eqn:Hd; [|discriminate].
    destruct (nth_error (paging_links d) 1) as [nx|] eqn:Hnx; [|discriminate].
    destruct (search_tag page_url) as [tag|] eqn:Ht; [|discriminate].
    destruct (file_write e (saved_csv tag)); try discriminate.
    destruct (file_write e CACHE_FILE); try discriminate.
    injection H as <- <-. exists d, nx, tag.
    do 4 (split; [first [reflexivity|assumption]|]). split; [|reflexivity].
    cbn [io]. rewrite <- !app_assoc. cbn [app]. rewrite <- ?app_assoc. reflexivity.
  - intros x s' H. split; [intros n; apply scan_pages_abort, H|].
    rewrite Heq in H.
    destruct (get_listing e page_url) as [d|]; [|injection H as _ <-; left; reflexivity].
    destruct (nth_error (paging_links d) 1) as [nx|]; [|injection H as _ <-; left; reflexivity].
    destruct (search_tag page_url) as [tag|]; [|injection H as _ <-; left; reflexivity].
    destruct (file_write e (saved_csv tag)) as [| |k0] eqn:Hw;
      [|injection H as _ <-; left; reflexivity|injection H as _ <-; left; reflexivity].
    destruct (file_write e CACHE_FILE) as [| |j] eqn:Hc;
      [discriminate|injection H as _ <-; left; reflexivity|].
    injection H as <- <-. right.
    exists ([Print (MsgFetching page_url); Get page_url] ++ map row_msg (rows d) ++
            flat_map (post_events e) (link_hrefs (rows d))),
           (saved_csv tag), (successes e (link_hrefs (rows d))), j, (URL_PREFIX ++ nx).
    split; [apply Hpre|]. do 3 (split; [first [reflexivity|assumption]|]).
    split; [|reflexivity]. cbn [io]. rewrite <- !app_assoc. cbn [app].
    rewrite <- ?app_assoc. reflexivity.
  - intros tag Ht Hw. rewrite Heq, Ht.
    destruct (get_listing e page_url) as [d|].
    2:{ split; [intros ? C; discriminate C|]. split; [reflexivity|].
        exists [Print (MsgFetching page_url); Get page_url]. split; reflexivity. }
    destruct (nth_error (paging_links d) 1) as [nx|].
    2:{ split; [intros ? C; discriminate C|]. split; [reflexivity|].
        exists ([Print (MsgFetching page_url); Get page_url] ++ map row_msg (rows d)).
        split; [reflexivity|].
        apply (count_no_output _). rewrite forallb_app, row_msgs_no_output. reflexivity. }
    destruct (file_write e (saved_csv tag)) as [| |k0]; [contradiction| |].
    + split; [intros ? C; discriminate C|]. split; [reflexivity|].
      exists ([Print (MsgFetching page_url); Get page_url] ++ map row_msg (rows d) ++
              flat_map (post_events e) (link_hrefs (rows d))).
      split; [cbn [io]; rewrite <- ?app_assoc; reflexivity|].
      apply (count_no_output _), Hpre.
    + split; [intros ? C; discriminate C|]. split; [reflexivity|].
      exists (([Print (MsgFetching page_url); Get page_url] ++ map row_msg (rows d) ++
               flat_map (post_events e) (link_hrefs (rows d))) ++
              [WriteCsvFailed (saved_csv tag) (successes e (link_hrefs (rows d)))]).
      split; [cbn [io]; rewrite <- ?app_assoc; reflexivity|].
      rewrite count_events_app, (proj2 (count_no_output _ (Hpre d))). reflexivity.
Qed.

Lemma checkpoint_written_after_save_witness :
  search_tag page_978 = Some (of_ascii "978") /\
  file_write env_nowrite (saved_csv (of_ascii "978")) <> Written /\
  cache_file (snd (fetch_one_page env_nowrite page_978 (mk_state (Some page_p4) [])))
    = Some page_p4 /\
  fetch_one_page env_cachefail page_978 (mk_state (Some page_p4) []) =
    (Err OSError, snd (fetch_one_page env_cachefail page_978 (mk_state (Some page_p4) []))) /\
  (forall n, scan_pages env_cachefail (S n) page_978 (mk_state (Some page_p4) []) =
    (Err OSError, snd (fetch_one_page env_cachefail page_978 (mk_state (Some page_p4) [])))).
Proof.
  assert (Ht : search_tag page_978 = Some (of_ascii "978")) by (vm_compute; reflexivity).
  assert (Hw : file_write env_nowrite (saved_csv (of_ascii "978")) <> Written)
    by discriminate.
  assert (Hf : fetch_one_page env_cachefail page_978 (mk_state (Some page_p4) []) =
    (Err OSError, snd (fetch_one_page env_cachefail page_978 (mk_state (Some page_p4) []))))
    by (vm_compute; reflexivity).
  split; [exact Ht|]. split; [exact Hw|]. split.
  - destruct (checkpoint_written_after_save env_nowrite page_978 (mk_state (Some page_p4) []))
      as (_ & _ & H3).
    exact (proj1 (proj2 (H3 _ Ht Hw))).
  - split; [exact Hf|].
    destruct (checkpoint_written_after_save env_cachefail page_978 (mk_state (Some page_p4) []))
      as (_ & H2 & _).
    exact (proj1 (H2 _ _ Hf)).
Defined.

Lemma records_with_url_successes (e : env) (hrefs : list pystr) (h : pystr) (r : record) :
  post_outcome e (URL_PREFIX ++ h) = Ok r ->
  records_with_url (URL_PREFIX ++ h) (successes e hrefs) =
    repeat r (count_occ pystr_eq_dec hrefs h).
Proof.
  intros Hr. pose proof (post_outcome_url _ _ _ Hr) as Hu.
  induction hrefs as [|h' hrefs IH]; [reflexivity|].
  unfold successes in *. cbn [flat_map count_occ]. unfold records_with_url in *.
  rewrite filter_app, IH.
  destruct (pystr_eq_dec h' h) as [->|Hne].
  - rewrite Hr. simpl. rewrite Hu. destruct (pystr_eq_dec _ _) as [_|C]; [reflexivity|].
    exfalso; apply C; reflexivity.
  - destruct (post_outcome e (URL_PREFIX ++ h')) as [r'|x] eqn:Hr'; [|reflexivity].
    simpl. rewrite (post_outcome_url _ _ _ Hr').
    destruct (pystr_eq_dec _ _) as [C|_]; [|reflexivity].
    exfalso. apply Hne. exact (app_inv_prefix _ _ _ C).
Qed.

Lemma count_get_post_events (e : env) (hrefs : list pystr) (h : pystr) :
  count_events (is_get (URL_PREFIX ++ h)) (flat_map (post_events e) hrefs) =
    count_occ pystr_eq_dec hrefs h.
Proof.
  induction hrefs as [|h' hrefs IH]; [reflexivity|].
  cbn [flat_map count_occ]. rewrite count_events_app, IH.
  assert (Hp : count_events (is_get (URL_PREFIX ++ h)) (post_events e h') =
               if pystr_eq_dec (URL_PREFIX ++ h') (URL_PREFIX ++ h) then 1%nat else 0%nat).
  { unfold post_events, count_events.
    destruct (post_outcome e (URL_PREFIX ++ h'));
      cbn [app filter is_get]; destruct (pystr_eq_dec _ _); reflexivity. }
  rewrite Hp.
  destruct (pystr_eq_dec (URL_PREFIX ++ h') (URL_PREFIX ++ h)) as [E|E];
    destruct (pystr_eq_dec h' h) as [E'|E'].
  - reflexivity.
  - exfalso. exact (E' (app_inv_prefix _ _ _ E)).
  - exfalso. apply E. rewrite E'. reflexivity.
  - reflexivity.
Qed.

Lemma count_get_no_get (v : pystr) (l : list event) :
  forallb (fun ev => match ev with Print _ => true | _ => false end) l = true ->
  count_events (is_get v) l = 0%nat.
Proof.
  unfold count_events. induction l as [|ev l IH]; [reflexivity|].
  cbn [forallb]. intros H. apply andb_true_iff in H as [Hev Hl].
  destruct ev; try discriminate. exact (IH Hl).
Qed.

Lemma row_msgs_prints (rs : list (option pystr)) :
  forallb (fun ev => match ev with Print _ => true | _ => false end) (map row_msg rs) = true.
Proof. induction rs as [|[h|] rs IH]; simpl; auto. Qed.

Lemma csv_rows_app (l1 l2 : list event) : csv_rows (l1 ++ l2) = csv_rows l1 ++ csv_rows l2.
Proof. unfold csv_rows. apply flat_map_app. Qed.

Lemma csv_rows_no_output (l : list event) :
  forallb (fun ev => negb (is_output ev)) l = true -> csv_rows l = [].
Proof.
  induction l as [|ev l IH]; [reflexivity|]. cbn [forallb]. intros H.
  apply andb_true_iff in H as [Hev Hl]. unfold csv_rows in *. cbn [flat_map].
  rewrite (IH Hl). destruct ev; try discriminate; reflexivity.
Qed.

Lemma fetch_one_page_ok_events (e : env) (u next : pystr) (s s1 : state) :
  fetch_one_page e u s = (Ok next, s1) ->
  exists d nx tag, get_listing e u = Some d /\ nth_error (paging_links d) 1 = Some nx /\
    next = URL_PREFIX ++ nx /\
    io s1 = io s ++ [Print (MsgFetching u); Get u] ++ map row_msg (rows d) ++
            flat_map (post_events e) (link_hrefs (rows d)) ++
            [WriteCsv (saved_csv tag) (successes e (link_hrefs (rows d)));
             Print (MsgSaved (saved_csv tag)); WriteCache next].
Proof.
  rewrite fetch_one_page_eq. cbv zeta. intros H.
  destruct (get_listing e u) as [d|] eqn:Hd; [|discriminate].
  destruct (nth_error (paging_links d) 1) as [nx|] eqn:Hnx; [|discriminate].
  destruct (search_tag u) as [tag|]; [|discriminate].
  destruct (file_write e (saved_csv tag)); try discriminate.
  destruct (file_write e CACHE_FILE); try discriminate.
  injection H as <- <-. exists d, nx, tag.
  do 3 (split; [first [reflexivity|assumption]|]).
  cbn [io]. rewrite <- !app_assoc. cbn [app]. rewrite <- ?app_assoc. reflexivity.
Qed.

Lemma scan_pages_post_counts (e : env) (h : pystr) (n : nat) (u : pystr) (s s' : state) :
  scan_pages e n u s = (Ok tt, s') ->
  exists l, io s' = io s ++ l /\
    count_events (is_get (URL_PREFIX ++ h)) l =
      list_sum (map (fun p => ((if pystr_eq_dec p (URL_PREFIX ++ h) then 1 else 0) +
                               count_occ pystr_eq_dec (page_hrefs e p) h)%nat)
                    (page_chain e n u)) /\
    (forall r, post_outcome e (URL_PREFIX ++ h) = Ok r ->
       records_with_url (URL_PREFIX ++ h) (csv_rows l) =
         repeat r (list_sum (map (fun p => count_occ pystr_eq_dec (page_hrefs e p) h)
                                 (page_chain e n u)))).
Proof.
  revert u s; induction n as [|n IH]; intros u s H.
  - cbn [scan_pages ret] in H. injection H as <-. exists [].
    split; [rewrite app_nil_r; reflexivity|]. split; reflexivity.
  - cbn [scan_pages] in H. unfold bind in H.
    destruct (fetch_one_page e u s) as [[next|x] s1] eqn:E; [|discriminate].
    destruct (fetch_one_page_ok_events _ _ _ _ _ E) as (d & nx & tag & Hd & Hnx & -> & Hio).
    destruct (IH _ _ H) as (l1 & Hio1 & Hc1 & Hr1).
    set (hs := link_hrefs (rows d)) in *.
    set (l0 := [Print (MsgFetching u); Get u] ++ map row_msg (rows d) ++
               flat_map (post_events e) hs ++
               [WriteCsv (saved_csv tag) (successes e hs);
                Print (MsgSaved (saved_csv tag)); WriteCache (URL_PREFIX ++ nx)]).
    exists (l0 ++ l1). split; [rewrite Hio1, Hio; subst l0; rewrite <- !app_assoc; reflexivity|].
    assert (Hchain : page_chain e (S n) u = u :: page_chain e n (URL_PREFIX ++ nx))
      by (cbn [page_chain]; rewrite Hd, Hnx; reflexivity).
    assert (Hph : page_hrefs e u = hs) by (unfold page_hrefs; rewrite Hd; reflexivity).
    assert (Hls : forall a l, list_sum (a :: l) = (a + list_sum l)%nat) by reflexivity.
    rewrite Hchain. cbn [map]. rewrite !Hls, Hph. split.
    + rewrite count_events_app, Hc1. subst l0. rewrite !count_events_app.
      rewrite count_get_post_events, (count_get_no_get _ (map row_msg (rows d)))
        by apply row_msgs_prints.
      unfold count_events. cbn [filter is_get length].
      destruct (pystr_eq_dec u (URL_PREFIX ++ h)); cbn [length]; lia.
    + intros r Hr. rewrite csv_rows_app. unfold records_with_url in *.
      rewrite filter_app, (Hr1 r Hr), repeat_app. f_equal.
      subst l0. rewrite !csv_rows_app.
      rewrite (csv_rows_no_output (map row_msg (rows d))) by apply row_msgs_no_output.
      rewrite (csv_rows_no_output (flat_map (post_events e) hs)) by apply post_events_no_output.
      cbn. rewrite app_nil_r.
      exact (records_with_url_successes e hs h r Hr).
Qed.

(** C1 (amended): post urls are not deduplicated. On a page, every
    occurrence of a post [href] is fetched and extracted, the failing ones
    included (each prints its own skip message): the page's events are
    the events of each occurrence in turn, there is one request for the
    post per occurrence, and when its extraction succeeds the page's batch
    holds one record with its url per occurrence. Across the pages of a
    run the same holds: the post is requested once per occurrence on each
    page the run visits (besides a request for a listing page of the same
    url), and the csv files hold one record with its url per occurrence. *)
Theorem duplicate_hrefs_extracted_each_time (e : env) (h : pystr) :
  (forall hrefs s,
     fetch_page_records e hrefs [] s =
       (Ok (successes e hrefs),
        mk_state (cache_file s) (io s ++ flat_map (post_events e) hrefs)) /\
     count_events (is_get (URL_PREFIX ++ h)) (flat_map (post_events e) hrefs) =
       count_occ pystr_eq_dec hrefs h /\
     (forall r, post_outcome e (URL_PREFIX ++ h) = Ok r ->
        records_with_url (URL_PREFIX ++ h) (successes e hrefs) =
          repeat r (count_occ pystr_eq_dec hrefs h))) /\
  (forall n u s s', scan_pages e n u s = (Ok tt, s') ->
     exists l, io s' = io s ++ l /\
       count_events (is_get (URL_PREFIX ++ h)) l =
         list_sum (map (fun p => ((if pystr_eq_dec p (URL_PREFIX ++ h) then 1 else 0) +
                                  count_occ pystr_eq_dec (page_hrefs e p) h)%nat)
                       (page_chain e n u)) /\
       (forall r, post_outcome e (URL_PREFIX ++ h) = Ok r ->
          records_with_url (URL_PREFIX ++ h) (csv_rows l) =
            repeat r (list_sum (map (fun p => count_occ pystr_eq_dec (page_hrefs e p) h)
                                    (page_chain e n u))))).
Proof.
  split.
  - intros hrefs s. split; [exact (fetch_page_records_eq e hrefs [] s)|].
    split; [apply count_get_post_events|].
    intros r Hr. exact (records_with_url_successes e hrefs h r Hr).
  - intros n u s s' H. exact (scan_pages_post_counts e h n u s s' H).
Qed.

Lemma duplicate_hrefs_extracted_each_time_witness :
  post_outcome env_dup (URL_PREFIX ++ post_href) =
    Ok (mk_record (sale_marker ++ of_ascii " EOS 5D Mark III") 4500 (of_ascii "ptt")
                  (of_ascii "seller") 1451700000 (URL_PREFIX ++ post_href)) /\
  scan_pages env_dup 2 page_978 (mk_state None []) =
    (Ok tt, snd (scan_pages env_dup 2 page_978 (mk_state None []))) /\
  exists l, io (snd (scan_pages env_dup 2 page_978 (mk_state None []))) = [] ++ l /\
    count_events (is_get (URL_PREFIX ++ post_href)) l = 4%nat /\
    records_with_url (URL_PREFIX ++ post_href) (csv_rows l) =
      repeat (mk_record (sale_marker ++ of_ascii " EOS 5D Mark III") 4500 (of_ascii "ptt")
                        (of_ascii "seller") 1451700000 (URL_PREFIX ++ post_href)) 4.
Proof.
  assert (Hr : post_outcome env_dup (URL_PREFIX ++ post_href) =
    Ok (mk_record (sale_marker ++ of_ascii " EOS 5D Mark III") 4500 (of_ascii "ptt")
                  (of_ascii "seller") 1451700000 (URL_PREFIX ++ post_href)))
    by (vm_compute; reflexivity).
  assert (Hs : scan_pages env_dup 2 page_978 (mk_state None []) =
    (Ok tt, snd (scan_pages env_dup 2 page_978 (mk_state None []))))
    by (vm_compute; reflexivity).
  split; [exact Hr|]. split; [exact Hs|].
  destruct (proj2 (duplicate_hrefs_extracted_each_time env_dup post_href) 2%nat page_978 _ _ Hs)
    as (l & Hio & Hc & Hrec).
  exists l. split; [exact Hio|]. split.
  - rewrite Hc. vm_compute. reflexivity.
  - rewrite (Hrec _ Hr). vm_compute. reflexivity.
Defined.

Lemma saved_csv_not_fallback (tag : pystr) :
  tag <> [] -> forallb is_digit tag = true -> saved_csv tag <> SAVED_CSV.
Proof.
  intros Hne Hdig H. unfold saved_csv, SAVED_CSV in H.
  change (of_ascii "records/%s.csv") with (of_ascii "records/" ++ of_ascii "%s.csv") in H.
  apply app_inv_prefix in H. destruct tag as [|c tag]; [contradiction|].
  cbn in H. injection H as Hc _. subst c. discriminate Hdig.
Qed.

Lemma rstrip_last_nonspace (l : pystr) (c : Z) :
  is_space c = false -> rstrip (l ++ [c]) = l ++ [c].
Proof.
  intros Hc. unfold rstrip. rewrite rev_app_distr. cbn [rev app lstrip]. rewrite Hc.
  cbn [rev]. rewrite rev_involutive. reflexivity.
Qed.

Lemma strip_url (h : pystr) :
  (h = [] \/ is_space (last h 0) = false) -> strip (URL_PREFIX ++ h) = URL_PREFIX ++ h.
Proof.
  intros Hh. unfold strip. replace (lstrip (URL_PREFIX ++ h)) with (URL_PREFIX ++ h)
    by reflexivity.
  destruct Hh as [->|Hl].
  - reflexivity.
  - destruct h as [|x h'] using rev_ind; [reflexivity|].
    rewrite last_last in Hl. rewrite app_assoc. apply rstrip_last_nonspace, Hl.
Qed.

Lemma digit_run_app_stop (d t : pystr) (c : Z) :
  forallb is_digit d = true -> is_digit c = false -> digit_run (d ++ c :: t) = length d.
Proof.
  induction d as [|x d IH]; simpl; intros Hd Hc.
  - rewrite Hc. reflexivity.
  - apply andb_true_iff in Hd as [Hx Hd]. rewrite Hx, (IH Hd Hc). reflexivity.
Qed.

Lemma firstn_app_length (a b : pystr) : firstn (length a) (a ++ b) = a.
Proof. induction a as [|x a IH]; simpl; [reflexivity|]. rewrite IH. reflexivity. Qed.

Lemma skipn_app_length (a b : pystr) : skipn (length a) (a ++ b) = b.
Proof. induction a as [|x a IH]; simpl; [reflexivity|]. exact IH. Qed.

Lemma skipn_app_cons (a t : pystr) (x : Z) : skipn (S (length a)) (a ++ x :: t) = t.
Proof. induction a as [|y a IH]; simpl; [reflexivity|]. exact IH. Qed.

Lemma is_prefix_app (p r : pystr) : is_prefix p (p ++ r) = true.
Proof. induction p as [|x p IH]; simpl; [reflexivity|]. rewrite Z.eqb_refl. exact IH. Qed.

Lemma search_tag_unfold (s : pystr) :
  search_tag s = match match_tag_at s with
                 | Some g => Some g
                 | None => match s with [] => None | _ :: s' => search_tag s' end
                 end.
Proof. destruct s; reflexivity. Qed.

Lemma search_tag_standalone (pre d rest : pystr) :
  forallb (fun c => negb (is_digit c)) pre = true -> d <> [] -> forallb is_digit d = true ->
  search_tag (pre ++ d ++ of_ascii ".html" ++ rest) = Some d.
Proof.
  intros Hpre Hne Hd. induction pre as [|c pre IH].
  - cbn [app]. rewrite search_tag_unfold. unfold match_tag_at.
    change (of_ascii ".html" ++ rest) with (46 :: of_ascii "html" ++ rest).
    rewrite (digit_run_app_stop d _ 46 Hd eq_refl).
    destruct d as [|x d'] eqn:Ed; [contradiction|]. rewrite <- Ed.
    assert (Hl : length d = S (length d')) by (subst d; reflexivity).
    rewrite Hl. cbn [backtrack_tag]. rewrite <- Hl.
    rewrite nth_error_app2, Nat.sub_diag by lia. cbn [nth_error].
    rewrite skipn_app_cons, is_prefix_app. change (negb (46 =? ch_newline)) with true.
    cbn [andb]. rewrite firstn_app_length. reflexivity.
  - cbn in Hpre. apply andb_true_iff in Hpre as [Hc Hpre].
    cbn [app search_tag]. unfold match_tag_at. cbn [digit_run].
    destruct (is_digit c); [discriminate|]. cbn [backtrack_tag]. exact (IH Hpre).
Qed.

(** * Further properties of the crawler *)

(** X1: the tag of a listing page url
    ["http://www.ptt.cc/bbs/<board>/index<N>.html"] of a board whose name
    has no digit is the page number [N]; the page's records go to
    ["records/<N>.csv"]. *)
Theorem listing_page_tag (board index : pystr) (s : state) :
  forallb (fun c => negb (is_digit c)) board = true -> index <> [] ->
  forallb is_digit index = true ->
  parge_page_tag (listing_url board index) s = (Ok index, s).
Proof.
  intros Hb Hne Hd. unfold parge_page_tag, listing_url.
  replace (URL_PREFIX ++ of_ascii "/bbs/" ++ board ++ of_ascii "/index" ++ index
             ++ of_ascii ".html")
    with ((URL_PREFIX ++ of_ascii "/bbs/" ++ board ++ of_ascii "/index") ++ index
             ++ of_ascii ".html" ++ [])
    by (rewrite app_nil_r, <- !app_assoc; reflexivity).
  rewrite search_tag_standalone; [reflexivity| |exact Hne|exact Hd].
  rewrite !forallb_app, Hb. reflexivity.
Qed.

Lemma listing_page_tag_witness :
  root_page (of_ascii "photo-buy") = listing_url (of_ascii "photo-buy") (of_ascii "979") /\
  parge_page_tag (root_page (of_ascii "photo-buy")) (mk_state None [])
    = (Ok (of_ascii "979"), mk_state None []).
Proof.
  assert (H : root_page (of_ascii "photo-buy") = listing_url (of_ascii "photo-buy") (of_ascii "979"))
    by reflexivity.
  split; [exact H|]. rewrite H.
  apply listing_page_tag; [reflexivity|discriminate|reflexivity].
Defined.

(** X2: every csv file a run opens for writing, whether the writing
    completes or fails, is ["records/<tag>.csv"] for the nonempty run of
    digits [__parge_page_tag] takes from the page url; the fallback name
    ["records/%s.csv"] is never written. *)
Theorem run_csv_files_named_by_tag (e : env) (board_name : pystr) (s : state) :
  exists l, io (snd (run e board_name s)) = io s ++ l /\
    forall fn rs, In (WriteCsv fn rs) l \/ In (WriteCsvFailed fn rs) l ->
      exists tag, fn = saved_csv tag /\ tag <> [] /\ forallb is_digit tag = true /\
                  fn <> SAVED_CSV.
Proof.
  unfold run, fetch.
  destruct (scan_pages_shape e PAGES (start_page board_name (cache_init (cache_file s))) s)
    as (l & Hio & _ & _ & _ & Hn).
  exists l. split; [exact Hio|]. intros fn rs Hin.
  destruct (Hn fn rs Hin) as (tag & -> & Hne & Hd). exists tag.
  split; [reflexivity|]. split; [exact Hne|]. split; [exact Hd|].
  apply saved_csv_not_fallback; assumption.
Qed.

(** X3: a run writes at most [PAGES] (100) csv files and at most
    [PAGES] checkpoints, and exactly [PAGES] of each when it finishes
    without an exception: it never stops early by itself. *)
Theorem run_page_counts (e : env) (board_name : pystr) (s : state) :
  exists l, io (snd (run e board_name s)) = io s ++ l /\
    (count_events is_csv l <= PAGES)%nat /\ (count_events is_cache_write l <= PAGES)%nat /\
    (fst (run e board_name s) = Ok tt ->
       count_events is_csv l = PAGES /\ count_events is_cache_write l = PAGES).
Proof.
  unfold run, fetch.
  destruct (scan_pages_shape e PAGES (start_page board_name (cache_init (cache_file s))) s)
    as (l & Hio & Hc & Hw & Hok & _).
  exists l. auto.
Qed.

(** X4: after [n] pages complete, the [cache] file holds the url of the
    next page, and crawling [m] more pages from it is the same as
    crawling [n + m] pages in one go. *)
Theorem scan_pages_resume (e : env) (n : nat) (u : pystr) (s s1 : state) :
  scan_pages e n u s = (Ok tt, s1) -> (0 < n)%nat ->
  exists v, cache_file s1 = Some v /\
    forall m, scan_pages e (n + m) u s = scan_pages e m v s1.
Proof.
  revert u s; induction n as [|n IH]; intros u s H Hn; [lia|].
  cbn [scan_pages] in H. unfold bind in H.
  destruct (fetch_one_page e u s) as [[next|x] s2] eqn:E; [|discriminate].
  destruct n as [|n].
  - cbn [scan_pages ret] in H. injection H as <-. exists next.
    split; [exact (fetch_one_page_ok_cache _ _ _ _ _ E)|]. intros m.
    cbn [Nat.add scan_pages]. unfold bind. rewrite E. reflexivity.
  - destruct (IH next s2 H ltac:(lia)) as (v & Hv & Hrest). exists v.
    split; [exact Hv|]. intros m. specialize (Hrest m).
    cbn [Nat.add scan_pages]. unfold bind at 1. rewrite E. exact Hrest.
Qed.

Lemma scan_pages_resume_witness :
  scan_pages env_dup 1 page_978 (mk_state None []) =
    (Ok tt, snd (scan_pages env_dup 1 page_978 (mk_state None []))) /\
  exists v, cache_file (snd (scan_pages env_dup 1 page_978 (mk_state None []))) = Some v /\
    forall m, scan_pages env_dup (1 + m) page_978 (mk_state None []) =
              scan_pages env_dup m v (snd (scan_pages env_dup 1 page_978 (mk_state None []))).
Proof.
  assert (H : scan_pages env_dup 1 page_978 (mk_state None []) =
    (Ok tt, snd (scan_pages env_dup 1 page_978 (mk_state None [])))) by (vm_compute; reflexivity).
  split; [exact H|]. apply (scan_pages_resume env_dup 1 page_978 _ _ H). lia.
Defined.

Lemma fetch_one_page_err_cache (e : env) (u : pystr) (x : exn) (s s' : state) :
  fetch_one_page e u s = (Err x, s') ->
  cache_file s' = cache_file s \/
  exists d nx j, get_listing e u = Some d /\ nth_error (paging_links d) 1 = Some nx /\
    file_write e CACHE_FILE = WriteFails j /\ x = OSError /\
    cache_file s' = Some (firstn j (URL_PREFIX ++ nx)).
Proof.
  intros H. destruct (fetch_one_page_shape e u s) as (l & _ & Hs). rewrite H in Hs.
  destruct Hs as [[Hc _]|(tag & recs & d & nx & j & Hd & Hnx & _ & Hj & Hx & _ & Hc)].
  - left; exact Hc.
  - right. exists d, nx, j. auto.
Qed.

(** X5: when a crawl raises, the pages before the failing one have
    completed, and before the failing page the [cache] file names it (or
    is as it was, when the first page fails). The failure leaves the
    [cache] file so, and the next run starts again at the failing page,
    unless the failure is the failing page's own checkpoint write, which
    leaves a prefix of the url of the page after it. *)
Theorem scan_pages_error_checkpoint (e : env) (n : nat) (u : pystr) (s s1 : state) (x : exn) :
  scan_pages e n u s = (Err x, s1) ->
  exists k v s2, (k < n)%nat /\ scan_pages e k u s = (Ok tt, s2) /\
    fetch_one_page e v s2 = (Err x, s1) /\
    (k = 0%nat -> v = u /\ cache_file s2 = cache_file s) /\
    ((0 < k)%nat -> cache_file s2 = Some v) /\
    (cache_file s1 = cache_file s2 \/
     exists d nx j, get_listing e v = Some d /\ nth_error (paging_links d) 1 = Some nx /\
       file_write e CACHE_FILE = WriteFails j /\ x = OSError /\
       cache_file s1 = Some (firstn j (URL_PREFIX ++ nx))).
Proof.
  revert u s; induction n as [|n IH]; intros u s H; [discriminate|].
  cbn [scan_pages] in H. unfold bind in H.
  destruct (fetch_one_page e u s) as [[next|y] s2] eqn:E.
  - destruct (IH next s2 H) as (k & v & s3 & Hk & Hok & Hf & H0 & Hpos & Hlast).
    exists (S k), v, s3. split; [lia|]. split.
    { cbn [scan_pages]. unfold bind. rewrite E. exact Hok. }
    split; [exact Hf|]. split; [discriminate|]. split; [|exact Hlast]. intros _.
    destruct k as [|k].
    + destruct (H0 eq_refl) as [-> Hc]. rewrite Hc. exact (fetch_one_page_ok_cache _ _ _ _ _ E).
    + apply Hpos. lia.
  - injection H as -> <-. exists 0%nat, u, s. split; [lia|]. split; [reflexivity|].
    split; [exact E|]. split; [auto|]. split; [lia|].
    exact (fetch_one_page_err_cache _ _ _ _ _ E).
Qed.

Lemma scan_pages_error_checkpoint_witness :
  scan_pages env_nowrite 3 page_978 (mk_state (Some page_p4) []) =
    (Err OSError, snd (scan_pages env_nowrite 3 page_978 (mk_state (Some page_p4) []))) /\
  exists k v s2, (k < 3)%nat /\ scan_pages env_nowrite k page_978 (mk_state (Some page_p4) []) = (Ok tt, s2) /\
    fetch_one_page env_nowrite v s2 =
      (Err OSError, snd (scan_pages env_nowrite 3 page_978 (mk_state (Some page_p4) []))).
Proof.
  assert (H : scan_pages env_nowrite 3 page_978 (mk_state (Some page_p4) []) =
    (Err OSError, snd (scan_pages env_nowrite 3 page_978 (mk_state (Some page_p4) []))))
    by (vm_compute; reflexivity).
  split; [exact H|].
  destruct (scan_pages_error_checkpoint env_nowrite 3 page_978 _ _ _ H)
    as (k & v & s2 & Hk & Hok & Hf & _).
  exists k, v, s2. auto.
Defined.

(** X6: a checkpoint the crawler writes is read back by the next
    [PttCrawler]: after [write_next_page] of ["http://www.ptt.cc" + href]
    for an [href] that does not end in whitespace, the next crawler
    starts at exactly that url. *)
Theorem checkpoint_read_back (e : env) (board_name h : pystr) (s s' : state) :
  write_next_page e (URL_PREFIX ++ h) s = (Ok tt, s') ->
  (h = [] \/ is_space (last h 0) = false) ->
  start_page board_name (cache_init (cache_file s')) = URL_PREFIX ++ h.
Proof.
  intros H Hh. unfold write_next_page in H.
  destruct (file_write e CACHE_FILE); [|discriminate|discriminate].
  injection H as <-. cbn [cache_file cache_init start_page]. unfold start_page. cbn.
  exact (strip_url h Hh).
Qed.

Lemma checkpoint_read_back_witness :
  write_next_page env_dup (URL_PREFIX ++ of_ascii "/bbs/photo-buy/index977.html") (mk_state None []) =
    (Ok tt, mk_state (Some (URL_PREFIX ++ of_ascii "/bbs/photo-buy/index977.html"))
                     [WriteCache (URL_PREFIX ++ of_ascii "/bbs/photo-buy/index977.html")]) /\
  start_page (of_ascii "photo-buy")
    (cache_init (Some (URL_PREFIX ++ of_ascii "/bbs/photo-buy/index977.html")))
    = URL_PREFIX ++ of_ascii "/bbs/photo-buy/index977.html".
Proof.
  assert (H : write_next_page env_dup (URL_PREFIX ++ of_ascii "/bbs/photo-buy/index977.html")
                (mk_state None []) =
    (Ok tt, mk_state (Some (URL_PREFIX ++ of_ascii "/bbs/photo-buy/index977.html"))
                     [WriteCache (URL_PREFIX ++ of_ascii "/bbs/photo-buy/index977.html")]))
    by reflexivity.
  split; [exact H|].
  exact (checkpoint_read_back env_dup (of_ascii "photo-buy") _ _ _ H (or_intror eq_refl)).
Defined.

(** X7: a listing page that cannot be fetched, or whose paging bar has
    fewer than two links, stops the crawl with an exception after its
    rows are printed, before any of its posts is fetched, with no csv
    file and no checkpoint written. *)
Theorem listing_failure_stops_crawl (e : env) (u : pystr) (n : nat) (s : state) :
  (get_listing e u = None ->
     scan_pages e (S n) u s =
       (Err RequestException, mk_state (cache_file s) (io s ++ [Print (MsgFetching u); Get u]))) /\
  (forall d, get_listing e u = Some d -> (length (paging_links d) < 2)%nat ->
     scan_pages e (S n) u s =
       (Err IndexError, mk_state (cache_file s)
                          (io s ++ [Print (MsgFetching u); Get u] ++ map row_msg (rows d)))).
Proof.
  split.
  - intros Hn. apply scan_pages_abort. rewrite fetch_one_page_eq, Hn. reflexivity.
  - intros d Hd Hl. apply scan_pages_abort. rewrite fetch_one_page_eq, Hd.
    rewrite (proj2 (nth_error_None (paging_links d) 1)) by lia. reflexivity.
Qed.

Lemma listing_failure_stops_crawl_witness :
  get_listing env_nolinks page_978 = Some (mk_listing_doc [None] []) /\
  scan_pages env_nolinks 1 page_978 (mk_state None []) =
    (Err IndexError, mk_state None ([] ++ [Print (MsgFetching page_978); Get page_978]
                                     ++ [Print MsgSkipped])).
Proof.
  split; [reflexivity|].
  exact (proj2 (listing_failure_stops_crawl env_nolinks page_978 0 (mk_state None []))
           (mk_listing_doc [None] []) eq_refl ltac:(cbn; lia)).
Defined.

(** X8: [__fetch_page_urls] fetches the listing page only; it returns the
    [href] of the second paging link and the [href]s of the rows that
    have a link, in row order, printing "Found" for those and "Skipped"
    for the others. *)
Theorem fetch_page_urls_rows (e : env) (u : pystr) (d : listing_doc) (next_page_url : pystr)
  (s : state) :
  get_listing e u = Some d -> nth_error (paging_links d) 1 = Some next_page_url ->
  fetch_page_urls e u s =
    (Ok (next_page_url, link_hrefs (rows d)),
     mk_state (cache_file s) (io s ++ [Print (MsgFetching u); Get u] ++ map row_msg (rows d))).
Proof. intros Hd Hn. rewrite fetch_page_urls_eq, Hd, Hn. reflexivity. Qed.

Lemma fetch_page_urls_rows_witness :
  fetch_page_urls env_dup page_978 (mk_state None []) =
    (Ok (of_ascii "/bbs/photo-buy/index979.html", [post_href; post_href]),
     mk_state None ([] ++ [Print (MsgFetching page_978); Get page_978] ++
                   [Print (MsgFound post_href); Print MsgSkipped; Print (MsgFound post_href)])).
Proof.
  exact (fetch_page_urls_rows env_dup page_978 listing_dup (of_ascii "/bbs/photo-buy/index979.html")
           (mk_state None []) eq_refl eq_refl).
Defined.

(** * Further properties of [PttRecord] *)

Lemma forallb_rev {A} (f : A -> bool) (l : list A) : forallb f (rev l) = forallb f l.
Proof.
  induction l as [|x l IH]; simpl; [reflexivity|].
  rewrite forallb_app, IH. simpl. rewrite andb_true_r, andb_comm. reflexivity.
Qed.

(** The first word [s.split()] yields: a nonempty run of non-whitespace
    that starts the text (after leading whitespace) and ends at
    whitespace or at the end. *)
Lemma split_ws_aux_head (s cur t : pystr) (ts : list pystr) :
  forallb (fun c => negb (is_space c)) cur = true -> split_ws_aux s cur = t :: ts ->
  exists w, t = rev cur ++ w /\ t <> [] /\ forallb (fun c => negb (is_space c)) t = true /\
    (match cur with [] => lstrip s | _ => s end = w \/
     exists c r, match cur with [] => lstrip s | _ => s end = w ++ c :: r /\ is_space c = true).
Proof.
  revert cur t ts; induction s as [|c s IH]; intros cur t ts Hcur H.
  - simpl in H. destruct cur as [|x cur']; [discriminate|]. injection H as <- _.
    exists []. rewrite app_nil_r. split; [reflexivity|]. split.
    + simpl. intros Hn. destruct (rev cur'); discriminate Hn.
    + split; [rewrite <- forallb_rev in Hcur; exact Hcur|]. left; reflexivity.
  - cbn [split_ws_aux] in H. destruct (is_space c) eqn:Hc.
    + destruct cur as [|x cur'].
      * destruct (IH [] t ts eq_refl H) as (w & Ht & Hne & Hf & Hs). exists w.
        split; [exact Ht|]. split; [exact Hne|]. split; [exact Hf|].
        cbn [lstrip]. rewrite Hc. exact Hs.
      * injection H as <- _. exists []. rewrite app_nil_r. split; [reflexivity|]. split.
        -- simpl. intros Hn. destruct (rev cur'); discriminate Hn.
        -- split; [rewrite <- forallb_rev in Hcur; exact Hcur|]. right. exists c, s.
           split; [reflexivity|exact Hc].
    + destruct (IH (c :: cur) t ts) as (w & Ht & Hne & Hf & Hs).
      { simpl. rewrite Hc, Hcur. reflexivity. }
      { exact H. }
      exists (c :: w). split; [rewrite Ht; simpl; rewrite <- app_assoc; reflexivity|].
      split; [exact Hne|]. split; [exact Hf|].
      assert (Hm : match cur with [] => lstrip (c :: s) | _ => c :: s end = c :: s).
      { destruct cur; [cbn [lstrip]; rewrite Hc|]; reflexivity. }
      rewrite Hm. destruct Hs as [->|(d & r & -> & Hd)]; [left; reflexivity|].
      right. exists d, r. split; [reflexivity|exact Hd].
Qed.

Lemma split_ws_aux_blank (s : pystr) : forallb is_space s = true -> split_ws_aux s [] = [].
Proof.
  induction s as [|c s IH]; simpl; [reflexivity|].
  intros H; apply andb_true_iff in H as [Hc Hs]. rewrite Hc. exact (IH Hs).
Qed.

Lemma digit_run_all (m post : pystr) :
  forallb is_digit m = true ->
  match post with c :: _ => is_digit c = false | [] => True end ->
  digit_run (m ++ post) = length m.
Proof.
  intros Hm Hp. destruct post as [|c t].
  - rewrite app_nil_r. pose proof (digit_run_le_length m).
    pose proof (digit_run_app_le m [] Hm). rewrite app_nil_r in *. lia.
  - exact (digit_run_app_stop m t c Hm Hp).
Qed.

(** A hundred-rounded number followed by no digit is what [\d+00]
    matches where it starts. *)
Lemma match_price_standalone (m post : pystr) :
  hundred_rounded m -> match post with c :: _ => is_digit c = false | [] => True end ->
  match_price_at (m ++ post) = Some m.
Proof.
  intros Hh Hp. destruct (match_price_at (m ++ post)) as [m0|] eqn:E.
  - destruct (match_price_at_some _ _ E) as (Hh0 & (b & Hb) & Hmax).
    pose proof (Hmax m post eq_refl Hh) as Hle.
    destruct Hh0 as (_ & Hd0 & _). destruct Hh as (_ & Hd & _).
    pose proof (digit_run_app_le m0 b Hd0) as Hge.
    rewrite <- Hb, (digit_run_all m post Hd Hp) in Hge.
    assert (Hl : length m0 = length m) by lia.
    f_equal. rewrite <- (firstn_app_length m0 b), <- Hb, Hl. apply firstn_app_length.
  - exfalso. exact (match_price_at_none _ E m post eq_refl Hh).
Qed.

Lemma search_price_from_unfold (s : pystr) (i : nat) :
  search_price_from s i =
  match match_price_at s with
  | Some m => Some (i, m)
  | None => match s with [] => None | _ :: s' => search_price_from s' (S i) end
  end.
Proof. destruct s; reflexivity. Qed.

Lemma search_price_standalone (pre m post : pystr) (i : nat) :
  forallb (fun c => negb (is_digit c)) pre = true -> hundred_rounded m ->
  match post with c :: _ => is_digit c = false | [] => True end ->
  search_price_from (pre ++ m ++ post) i = Some ((i + length pre)%nat, m).
Proof.
  intros Hpre Hh Hp. revert i; induction pre as [|c pre IH]; intros i.
  - cbn [app length]. rewrite search_price_from_unfold, match_price_standalone by assumption.
    rewrite Nat.add_0_r. reflexivity.
  - cbn in Hpre. apply andb_true_iff in Hpre as [Hc Hpre].
    cbn [app]. rewrite search_price_from_unfold. unfold match_price_at. cbn [digit_run].
    destruct (is_digit c); [discriminate|]. cbn [backtrack_00].
    rewrite (IH Hpre (S i)). cbn [length]. f_equal. f_equal. lia.
Qed.

(** X9: the author of every record is the first whitespace-separated
    word of the first meta field: nonempty, without whitespace, at the
    start of the field once leading whitespace is removed, and followed
    there by whitespace or by the end of the field. *)
Theorem ptt_record_author_token (pd : pystr -> option Z) (dom : post_doc) (u : pystr)
  (r : record) :
  ptt_record pd dom u = Ok r ->
  exists a, nth_error (meta_values dom) 0 = Some a /\ author r <> [] /\
    forallb (fun c => negb (is_space c)) (author r) = true /\
    (lstrip a = author r \/ exists c rest, lstrip a = author r ++ c :: rest /\ is_space c = true).
Proof.
  unfold ptt_record, rbind, nth_or_index_error.
  destruct (main_content dom) as [texts|]; [|discriminate].
  destruct (nth_error (meta_values dom) 1) as [title|]; [|discriminate].
  destruct (format_name title) as [nm|]; [|discriminate].
  destruct (nth_error (meta_values dom) 0) as [a|]; [|discriminate].
  unfold split_ws. destruct (split_ws_aux a []) as [|au aus] eqn:Hs; [discriminate|].
  change (nth_error (au :: aus) 0) with (Some au).
  destruct (nth_error (meta_values dom) 2); [|discriminate].
  destruct (pd _); [|discriminate].
  destruct (search_price _) as [[i m]|]; [|discriminate].
  destruct (int_value m =? 0); [discriminate|].
  intros H; injection H as <-. cbn [author].
  destruct (split_ws_aux_head a [] au aus eq_refl Hs) as (w & Hw & Hne & Hf & Hl).
  cbn [rev app] in Hw. subst w.
  exists a. split; [reflexivity|]. split; [exact Hne|]. split; [exact Hf|]. exact Hl.
Qed.

Lemma ptt_record_author_token_witness :
  ptt_record (fun _ => Some 0) post_ok (of_ascii "u") =
    Ok (mk_record (sale_marker ++ of_ascii " EOS 5D Mark III") 4500 (of_ascii "ptt")
                  (of_ascii "seller") 0 (of_ascii "u")) /\
  exists a, nth_error (meta_values post_ok) 0 = Some a /\ of_ascii "seller" <> [] /\
    forallb (fun c => negb (is_space c)) (of_ascii "seller") = true /\
    (lstrip a = of_ascii "seller" \/
     exists c rest, lstrip a = of_ascii "seller" ++ c :: rest /\ is_space c = true).
Proof.
  assert (H : ptt_record (fun _ => Some 0) post_ok (of_ascii "u") =
    Ok (mk_record (sale_marker ++ of_ascii " EOS 5D Mark III") 4500 (of_ascii "ptt")
                  (of_ascii "seller") 0 (of_ascii "u"))) by (vm_compute; reflexivity).
  split; [exact H|]. exact (ptt_record_author_token _ _ _ _ H).
Defined.

(** X10: a sale post whose author field is empty or only whitespace is
    rejected with [IndexError] ([split()[0]] of an empty list), so the
    crawler skips it as an unseen exception. *)
Theorem ptt_record_blank_author (pd : pystr -> option Z) (dom : post_doc) (u : pystr)
  (texts : list pystr) (a t : pystr) (rest : list pystr) (nm : pystr) :
  main_content dom = Some texts -> meta_values dom = a :: t :: rest ->
  format_name t = Ok nm -> forallb is_space a = true ->
  ptt_record pd dom u = Err IndexError /\ skip_msg IndexError = MsgUnseen IndexError.
Proof.
  intros Hc Hm Hf Ha. split; [|reflexivity].
  unfold ptt_record, rbind, nth_or_index_error. rewrite Hc, Hm. cbn [nth_error].
  rewrite Hf. unfold split_ws. rewrite (split_ws_aux_blank a Ha). reflexivity.
Qed.

Lemma ptt_record_blank_author_witness :
  format_name title_canon = Ok (sale_marker ++ of_ascii " EOS 5D Mark III") /\
  ptt_record (fun _ => Some 0)
    (mk_post_doc [blank_text; title_canon; of_ascii "Sat Jan  2 10:00:00 2016"] (Some [body_4500]))
    (of_ascii "u") = Err IndexError.
Proof.
  assert (Hf : format_name title_canon = Ok (sale_marker ++ of_ascii " EOS 5D Mark III"))
    by (vm_compute; reflexivity).
  split; [exact Hf|].
  exact (proj1 (ptt_record_blank_author (fun _ => Some 0)
    (mk_post_doc [blank_text; title_canon; of_ascii "Sat Jan  2 10:00:00 2016"] (Some [body_4500]))
    (of_ascii "u") [body_4500] blank_text title_canon [of_ascii "Sat Jan  2 10:00:00 2016"]
    _ eq_refl eq_refl Hf eq_refl)).
Defined.

(** X11: when the body's first digits form a standalone hundred-rounded
    number [m] (no digit before it, none right after it), the post's
    outcome is decided by [m] alone, whatever follows: the record has the
    price [int(m)], or, when [m] is all zeros such as ["000"], the post is
    rejected as [InvalidPrice] even if a valid price comes later. *)
Theorem ptt_record_standalone_price (pd : pystr -> option Z) (dom : post_doc) (u : pystr)
  (texts : list pystr) (a t d : pystr) (rest : list pystr) (nm au : pystr) (aus : list pystr)
  (dt : Z) (pre m post : pystr) :
  main_content dom = Some texts -> meta_values dom = a :: t :: d :: rest ->
  format_name t = Ok nm -> split_ws a = au :: aus -> pd d = Some dt ->
  join [ch_space] texts = pre ++ m ++ post ->
  forallb (fun c => negb (is_digit c)) pre = true -> hundred_rounded m ->
  match post with c :: _ => is_digit c = false | [] => True end ->
  ptt_record pd dom u =
    if int_value m =? 0 then Err (PttRecordException InvalidPrice nm)
    else Ok (mk_record nm (int_value m) (of_ascii "ptt") au dt u).
Proof.
  intros Hc Hm Hf Hs Hd Hj Hpre Hh Hp.
  unfold ptt_record, rbind, nth_or_index_error. rewrite Hc, Hm. cbn [nth_error].
  rewrite Hf, Hs. cbn [nth_error]. rewrite Hd, Hj. unfold search_price.
  rewrite (search_price_standalone pre m post 0 Hpre Hh Hp). reflexivity.
Qed.

Lemma ptt_record_standalone_price_witness :
  hundred_rounded (of_ascii "000") /\
  ptt_record (fun _ => Some 0)
    (mk_post_doc [of_ascii "seller (Seller)"; title_canon; of_ascii "Sat Jan  2 10:00:00 2016"]
                 (Some [of_ascii "price: 000 (typo), really 4500"]))
    (of_ascii "u") = Err (PttRecordException InvalidPrice (sale_marker ++ of_ascii " EOS 5D Mark III")).
Proof.
  assert (Hh : hundred_rounded (of_ascii "000")).
  { split; [cbn; lia|]. split; [reflexivity|]. exists [ch_zero]. reflexivity. }
  split; [exact Hh|].
  exact (ptt_record_standalone_price (fun _ => Some 0)
    (mk_post_doc [of_ascii "seller (Seller)"; title_canon; of_ascii "Sat Jan  2 10:00:00 2016"]
                 (Some [of_ascii "price: 000 (typo), really 4500"]))
    (of_ascii "u") _ _ _ _ _ (sale_marker ++ of_ascii " EOS 5D Mark III") (of_ascii "seller")
    [of_ascii "(Seller)"] 0 (of_ascii "price: ") (of_ascii "000") (of_ascii " (typo), really 4500")
    eq_refl eq_refl ltac:(vm_compute; reflexivity) ltac:(vm_compute; reflexivity) eq_refl
    eq_refl eq_refl Hh eq_refl).
Defined.

(** * Properties of the analysis script *)

Lemma fold_left_last {A B} (f : B -> A) (l : list B) (k : B) (a : A) :
  fold_left (fun _ x => f x) (l ++ [k]) a = f k.
Proof. rewrite fold_left_app. reflexivity. Qed.

(** X12: [Data.search] keeps only the rows whose name contains the last
    keyword: every earlier keyword of the model name is ignored, as the
    loop overwrites [matches] at each keyword. *)
Theorem search_uses_last_keyword {Row} (L : Analysis.lib Row) (frame : list Row)
  (model_name k : pystr) (ks : list pystr) :
  Analysis.keywords L model_name = ks ++ [k] ->
  Analysis.search L frame model_name =
    Ok (Analysis.sort_by_time L (Analysis.select frame (Analysis.contains_col L frame k))).
Proof.
  intros H. unfold Analysis.search. rewrite H.
  destruct ks as [|k0 ks]; cbn [app nth_or_index_error nth_error rbind];
    rewrite ?fold_left_last; [reflexivity|].
  rewrite (fold_left_last (Analysis.contains_col L frame) (k0 :: ks) k). reflexivity.
Qed.

Lemma search_uses_last_keyword_witness :
  Analysis.keywords ascii_lib (of_ascii "Nikon F3") = [of_ascii "nikon"] ++ [of_ascii "f3"] /\
  Analysis.search ascii_lib frame_f3 (of_ascii "Nikon F3") = Ok [(of_ascii "canon f3 body", 2)].
Proof.
  assert (Hk : Analysis.keywords ascii_lib (of_ascii "Nikon F3") = [of_ascii "nikon"] ++ [of_ascii "f3"])
    by (vm_compute; reflexivity).
  split; [exact Hk|].
  rewrite (search_uses_last_keyword ascii_lib frame_f3 _ _ _ Hk). vm_compute. reflexivity.
Defined.

Lemma strip_blank (t : pystr) : forallb is_space t = true -> strip t = [].
Proof. intros H. unfold strip, rstrip. rewrite (lstrip_blank t H). reflexivity. Qed.

Lemma plot_all_blank {Row} (L : Analysis.lib Row) (frame : list Row) (pre post : list pystr) :
  Analysis.py_lower L [] = [] -> fst (Analysis.plot_all L frame pre) = Ok tt ->
  Analysis.plot_all L frame (pre ++ [] :: post) = (Err IndexError, snd (Analysis.plot_all L frame pre)).
Proof.
  intros Hl. induction pre as [|m pre IH]; intros Hok.
  - cbn [app Analysis.plot_all]. unfold Analysis.search, Analysis.keywords. rewrite Hl.
    reflexivity.
  - cbn [app Analysis.plot_all] in *.
    destruct (Analysis.search L frame m) as [cd|x]; [|discriminate Hok].
    destruct (Analysis.plot L m cd) as [[[]|x] evs]; [|discriminate Hok].
    destruct (Analysis.plot_all L frame pre) as [r evs'] eqn:E. cbn [fst snd] in *.
    rewrite (IH Hok). reflexivity.
Qed.

(** X13: an empty or whitespace-only line in [camera.txt] stops [main]
    with [IndexError] when the loop reaches it ([keywords[0]] of no
    keyword): the models listed after it are never plotted. *)
Theorem main_stops_at_blank_line {Row} (L : Analysis.lib Row) (frame : list Row)
  (text blank : pystr) (pre_lines post_lines : list pystr) :
  Analysis.py_lower L [] = [] ->
  Analysis.readlines text = pre_lines ++ blank :: post_lines ->
  forallb is_space blank = true ->
  fst (Analysis.plot_all L frame (map strip pre_lines)) = Ok tt ->
  Analysis.main L frame (Some text) =
    (Err IndexError, snd (Analysis.plot_all L frame (map strip pre_lines))).
Proof.
  intros Hl Hr Hb Hok. unfold Analysis.main, Analysis.read_camera_list. rewrite Hr, map_app.
  cbn [map]. rewrite (strip_blank blank Hb). exact (plot_all_blank L frame _ _ Hl Hok).
Qed.

Lemma main_stops_at_blank_line_witness :
  Analysis.readlines (of_ascii "Nikon F3" ++ [ch_newline; ch_space; ch_newline] ++
                      of_ascii "Canon AE-1" ++ [ch_newline]) =
    [of_ascii "Nikon F3" ++ [ch_newline]] ++ [ch_space; ch_newline] ::
      [of_ascii "Canon AE-1" ++ [ch_newline]] /\
  Analysis.main ascii_lib frame_f3 (Some (of_ascii "Nikon F3" ++ [ch_newline; ch_space; ch_newline] ++
                      of_ascii "Canon AE-1" ++ [ch_newline])) =
    (Err IndexError, snd (Analysis.plot_all ascii_lib frame_f3 [of_ascii "Nikon F3"])).
Proof.
  assert (Hr : Analysis.readlines (of_ascii "Nikon F3" ++ [ch_newline; ch_space; ch_newline] ++
                      of_ascii "Canon AE-1" ++ [ch_newline]) =
    [of_ascii "Nikon F3" ++ [ch_newline]] ++ [ch_space; ch_newline] ::
      [of_ascii "Canon AE-1" ++ [ch_newline]]) by (vm_compute; reflexivity).
  split; [exact Hr|].
  exact (main_stops_at_blank_line ascii_lib frame_f3 _ _ _ _ eq_refl Hr eq_refl
           ltac:(vm_compute; reflexivity)).
Defined.

Lemma readlines_aux_line (m rest cur : pystr) :
  ~ In ch_newline m ->
  Analysis.readlines_aux (m ++ ch_newline :: rest) cur =
    (rev cur ++ m ++ [ch_newline]) :: Analysis.readlines_aux rest [].
Proof.
  revert cur; induction m as [|c m IH]; intros cur Hm.
  - cbn [app Analysis.readlines_aux]. rewrite Z.eqb_refl. reflexivity.
  - cbn [app Analysis.readlines_aux].
    assert (Hc : (c =? ch_newline) = false).
    { apply Z.eqb_neq. intros ->. apply Hm. left; reflexivity. }
    rewrite Hc, IH by (intros H; apply Hm; right; exact H).
    cbn [rev]. rewrite <- app_assoc. reflexivity.
Qed.

Lemma lstrip_app (m t : pystr) :
  lstrip (m ++ t) = match lstrip m with [] => lstrip t | _ => lstrip m ++ t end.
Proof.
  induction m as [|x m IH]; [reflexivity|].
  cbn [app lstrip]. destruct (is_space x); [exact IH|reflexivity].
Qed.

Lemma strip_snoc_space (m : pystr) (c : Z) :
  is_space c = true -> strip (m ++ [c]) = strip m.
Proof.
  intros Hc. unfold strip. rewrite lstrip_app.
  destruct (lstrip m) as [|y ys] eqn:E.
  - cbn [lstrip]. rewrite Hc. reflexivity.
  - unfold rstrip. rewrite rev_app_distr. cbn [rev app lstrip]. rewrite Hc. reflexivity.
Qed.

(** X14: a [camera.txt] that lists models one per line, each line ended
    by a newline, is read back as exactly those models, when no model has
    surrounding whitespace or a newline: the final newline adds no empty
    model. *)
Theorem camera_list_round_trip (ms : list pystr) :
  Forall (fun m => strip m = m /\ ~ In ch_newline m) ms ->
  Analysis.read_camera_list (Some (concat (map (fun m => m ++ [ch_newline]) ms))) = Ok ms.
Proof.
  intros H. unfold Analysis.read_camera_list. f_equal.
  induction H as [|m ms [Hs Hn] _ IH]; [reflexivity|].
  unfold Analysis.readlines in *. cbn [map concat].
  rewrite <- app_assoc. cbn [app]. rewrite readlines_aux_line by exact Hn.
  cbn [rev app map]. rewrite IH, strip_snoc_space, Hs by reflexivity. reflexivity.
Qed.

Lemma camera_list_round_trip_witness :
  Forall (fun m => strip m = m /\ ~ In ch_newline m) [of_ascii "Nikon F3"; of_ascii "Canon AE-1"] /\
  Analysis.read_camera_list
    (Some (of_ascii "Nikon F3" ++ [ch_newline] ++ of_ascii "Canon AE-1" ++ [ch_newline])) =
    Ok [of_ascii "Nikon F3"; of_ascii "Canon AE-1"].
Proof.
  assert (H : Forall (fun m => strip m = m /\ ~ In ch_newline m)
                [of_ascii "Nikon F3"; of_ascii "Canon AE-1"]).
  { repeat constructor; try (vm_compute; reflexivity); cbn; intuition discriminate. }
  split; [exact H|].
  exact (camera_list_round_trip [of_ascii "Nikon F3"; of_ascii "Canon AE-1"] H).
Defined.
